(** * SARS eFiling automation service: a model of [sars.py]

    The service is a sequential script around a browser-control library.
    The library (Selenium, webdriver_manager, BeautifulSoup, the thread
    pool) is not part of the repository: every call into it is a
    [lib_call] answered by the environment, which may return a value or
    raise.  The repository's own code -- the order of the calls, the
    try/except/finally blocks, the dictionaries that are built -- is
    written out in a state-and-exception monad over a log of the calls
    made so far. *)

From Stdlib Require Import Ascii String ZArith QArith DecimalString.
From Stdlib Require Import DecimalZ DecimalPos.
From stdpp Require Import gmap strings list.

Set Default Proof Using "Type".
#[local] Set Warnings "-register-all".
#[local] Open Scope Z_scope.

(** ** Python values *)

(** What [request.json()] can produce (numbers: integers and finite
    fractions).  Only truth value, [.get] and [.lower()] are ever asked of
    these values. *)
Inductive json :=
  | JNull
  | JBool (b : bool)
  | JInt (z : Z)
  | JFloat (q : Q)
  | JStr (s : string)
  | JArr (l : list json)
  | JObj (m : gmap string json).

(** Python's truth value: [None], [False], zero, and empty containers
    are false. *)
Definition truthy (v : json) : bool :=
  match v with
  | JNull => false
  | JBool b => b
  | JInt z => negb (z =? 0)
  | JFloat q => negb (Qnum q =? 0)
  | JStr s => negb (String.eqb s "")
  | JArr l => match l with [] => false | _ => true end
  | JObj m => negb (bool_decide (m = ∅))
  end.

(** [a or b] *)
Definition py_or (a b : json) : json := if truthy a then a else b.

Definition type_name (v : json) : string :=
  match v with
  | JNull => "NoneType"
  | JBool _ => "bool"
  | JInt _ => "int"
  | JFloat _ => "float"
  | JStr _ => "str"
  | JArr _ => "list"
  | JObj _ => "dict"
  end.

(** The dictionaries the handlers return hold strings only. *)
Abbreviation dict := (gmap string string).

(** Exceptions, by the name of their class; [exn_text] is [str(e)]. *)
Record exn := Exn { exn_class : string; exn_text : string }.

Inductive result (A : Type) :=
  | Val (a : A)
  | Exc (e : exn).
Arguments Val {A} a.
Arguments Exc {A} e.

Definition AttributeError (v : json) (attr : string) : exn :=
  Exn "AttributeError"
      ("'" +:+ type_name v +:+ "' object has no attribute '" +:+ attr +:+ "'").

(** ** Strings *)

Definition ascii_lower (c : ascii) : ascii :=
  let n := nat_of_ascii c in
  if (65 <=? n)%nat && (n <=? 90)%nat then ascii_of_nat (n + 32) else c.

(** [str.lower()].  Strings are byte strings here and only the letters
    A-Z are folded.  The results are only ever compared with, or
    searched for, the ASCII texts "login", "scrape_dashboard",
    "/app/login" and "/app/auth/password"; no character outside ASCII
    lower-cases to a letter that can take part in such a match. *)
Fixpoint lower (s : string) : string :=
  match s with
  | EmptyString => EmptyString
  | String c s' => String (ascii_lower c) (lower s')
  end.

(** [needle in hay] *)
Fixpoint contains (needle hay : string) : bool :=
  String.prefix needle hay
  || match hay with
     | EmptyString => false
     | String _ hay' => contains needle hay'
     end.

(** [str(n)] for an integer *)
Definition str_int (n : Z) : string := NilZero.string_of_int (Z.to_int n).

Definition newline : string := String (ascii_of_nat 10) EmptyString.

(** Selenium prints an exception as "Message: <msg>" and a line break. *)
Definition TimeoutException : exn :=
  Exn "TimeoutException" ("Message: " +:+ newline).

(** ** Calls into the libraries *)

Definition driver := nat.
Definition element := nat.

(** [By.ID], [By.XPATH], [By.TAG_NAME] *)
Inductive locator :=
  | ById (id : string)
  | ByXPath (xpath : string)
  | ByTagName (tag : string).

Inductive lib_call :=
  (** [ChromeDriverManager().install()] *)
  | CInstall
  (** [webdriver.Chrome(service=Service(path), options=...)] *)
  | CChrome (service_path : string) (arguments : list string)
            (experimental : list (string * list string))
  | CSetPageLoadTimeout (d : driver) (seconds : Z)
  | CGet (d : driver) (url : string)
  (** [WebDriverWait(d, timeout).until(EC.presence_of_element_located(loc))] *)
  | CWaitPresence (d : driver) (timeout : Z) (loc : locator)
  (** [WebDriverWait(d, timeout).until(EC.url_contains(part))] *)
  | CWaitUrlContains (d : driver) (timeout : Z) (part : string)
  | CClear (el : element)
  | CSendKeys (el : element) (keys : json)
  | CClick (el : element)
  | CExecuteScript (d : driver) (script : string) (arg : element)
  | CCurrentUrl (d : driver)
  | CSaveScreenshot (d : driver) (path : string)
  | CPageSource (d : driver)
  (** [BeautifulSoup(html, "html.parser").get_text(separator=sep, strip=True)] *)
  | CSoupGetText (html : string) (separator : string)
  | CQuit (d : driver)
  (** [time.sleep], in milliseconds *)
  | CSleep (ms : Z)
  (** [time.time()] *)
  | CTime
  (** [future.result(timeout=...)]: has the submitted task finished in time *)
  | CFutureResult (timeout : Z).

(** What a call gives back when it does not raise. *)
Definition ret_type (c : lib_call) : Type :=
  match c with
  | CInstall | CCurrentUrl _ | CPageSource _ | CSoupGetText _ _ => string
  | CWaitPresence _ _ _ => element
  | CTime => Z
  | _ => unit
  end.

Inductive event := Ev (c : lib_call) (r : result (ret_type c)).

Definition ev_call (e : event) : lib_call := let 'Ev c _ := e in c.

(** The world outside the program.  [oracle c n] is what call [c] does
    when it is the [n]-th call of the server's life; [clock n] is the
    reading of [time.time()] there; [polls n] is how many further polls a
    [WebDriverWait.until] started there can make before its deadline;
    [os_getenv] is the process environment after [load_dotenv()]. *)
Record env := Env {
  oracle : ∀ c : lib_call, nat → result (ret_type c);
  clock : nat → Z;
  polls : nat → nat;
  os_getenv : string → option string;
}.

(** The state of the server process: the log of calls and the
    module-level [persistent_driver]. *)
Record state := State {
  trace : list event;
  persistent_driver : option driver;
}.

Definition log (e : event) (s : state) : state :=
  State (trace s ++ [e]) (persistent_driver s).

Definition init_state : state := State [] None.

(** Driver objects are numbered in the order in which [webdriver.Chrome]
    returned them: the next one gets the number of browsers launched so
    far. *)
Definition launch (e : event) : bool :=
  match e with
  | Ev (CChrome _ _ _) (Val _) => true
  | _ => false
  end.

Definition launches (evs : list event) : nat := length (filter launch evs).

Definition launched (s : state) : nat := launches (trace s).

(** ** Settings *)

Record Settings := {
  headless : bool;
  browser_timeout : Z;
  keep_browser_open : bool;
  chrome_user_data_dir : option string;
  chrome_profile : option string;
}.

Definition Settings_init (getenv : string → option string) : Settings := {|
  headless := true;
  browser_timeout := 30;
  keep_browser_open := false;
  chrome_user_data_dir := getenv "CHROME_USER_DATA_DIR";
  chrome_profile := getenv "CHROME_PROFILE_DIR";
|}.

(** [ThreadPoolExecutor(max_workers=2)] *)
Definition executor_max_workers : nat := 2.

(** ** The monad *)

Definition M (A : Type) : Type := state → result A * state.

Definition raise {A} (e : exn) : M A := λ s, (Exc e, s).

#[global] Instance M_ret : MRet M := λ A a s, (Val a, s).

#[global] Instance M_bind : MBind M := λ A B f m s,
  match m s with
  | (Val a, s') => f a s'
  | (Exc e, s') => (Exc e, s')
  end.

(** [try: body except: handler], the clause that catches whatever is
    raised.  The handlers of [Section Program] use it for
    [except Exception as e:] as well: there every exception is taken to be
    an instance of [Exception], which is what the libraries raise when a
    call fails.  [Module Strict] below tells the two clauses apart. *)
Definition try_except {A} (body : M A) (handler : exn → M A) : M A :=
  λ s, match body s with
       | (Val a, s') => (Val a, s')
       | (Exc e, s') => handler e s'
       end.

(** [isinstance(e, Exception)]: the built-in classes that derive from
    [BaseException] directly are not [Exception]s. *)
Definition isinstance_Exception (e : exn) : bool :=
  negb (bool_decide (exn_class e ∈ ["KeyboardInterrupt"; "SystemExit";
                                    "GeneratorExit"])).

(** [try: body except Exception as e: handler]: an exception that is not
    an [Exception] passes the clause. *)
Definition try_except_Exception {A} (body : M A) (handler : exn → M A) : M A :=
  λ s, match body s with
       | (Val a, s') => (Val a, s')
       | (Exc e, s') =>
           if isinstance_Exception e then handler e s' else (Exc e, s')
       end.

(** [try: body finally: cleanup]; a [return] in [body] is delivered after
    [cleanup] has run. *)
Definition try_finally {A} (body : M A) (cleanup : M unit) : M A :=
  λ s, match body s with
       | (r, s') =>
           match cleanup s' with
           | (Val _, s'') => (r, s'')
           | (Exc e, s'') => (Exc e, s'')
           end
       end.

Definition lift {A} (r : result A) : M A := λ s, (r, s).

(** [obj.get(key, default)]: only dictionaries have [get]. *)
Definition py_get (obj : json) (key : string) (dflt : json) : M json :=
  match obj with
  | JObj m => mret (default dflt (m !! key))
  | _ => raise (AttributeError obj "get")
  end.

(** [obj.lower()]: only strings have [lower]. *)
Definition py_lower (obj : json) : M string :=
  match obj with
  | JStr s => mret (lower s)
  | _ => raise (AttributeError obj "lower")
  end.

Section Program.

Variable E : env.

Definition settings : Settings := Settings_init (os_getenv E).

(** A library call: the environment answers, the call is logged. *)
Definition call (c : lib_call) : M (ret_type c) :=
  λ s, let r := oracle E c (length (trace s)) in (r, log (Ev c r) s).

(** [time.sleep] and [time.time] do not raise. *)
Definition sleep (ms : Z) : M unit :=
  λ s, (Val (), log (Ev (CSleep ms) (Val ())) s).

Definition time_time : M Z :=
  λ s, let t := clock E (length (trace s)) in (Val t, log (Ev CTime (Val t)) s).

(** [webdriver.Chrome(...)]: when the constructor returns, the result is a
    new object, different from every driver made before. *)
Definition new_chrome (service_path : string) (arguments : list string)
    (experimental : list (string * list string)) : M driver :=
  λ s, let c := CChrome service_path arguments experimental in
       match oracle E c (length (trace s)) with
       | Val u => (Val (launched s), log (Ev c (Val u)) s)
       | Exc e => (Exc e, log (Ev c (Exc e)) s)
       end.

(** [WebDriverWait(d, timeout).until(method)] for a condition written in
    the repository: [method] is evaluated at least once and then once per
    poll until it is true or the deadline has passed, in which case
    [TimeoutException] is raised.  [NoSuchElementException] from the
    condition counts as false, any other exception leaves the wait. *)
Fixpoint until_loop (more : nat) (method : M bool) : M unit :=
  λ s, match method s with
       | (Val true, s') => (Val (), s')
       | (r, s') =>
           let again :=
             match more with
             | O => raise TimeoutException
             | S more' => until_loop more' method
             end in
           match r with
           | Exc e =>
               if String.eqb (exn_class e) "NoSuchElementException"
               then again s' else (Exc e, s')
           | Val _ => again s'
           end
       end.

Definition until (method : M bool) : M unit :=
  λ s, until_loop (polls E (length (trace s))) method s.

(** ** Selenium driver *)

Definition truthy_opt (o : option string) : bool :=
  match o with
  | Some s => negb (String.eqb s "")
  | None => false
  end.

Definition chrome_arguments : list string :=
  [ "--headless=new"; "--disable-gpu"; "--no-sandbox";
    "--disable-dev-shm-usage"; "--disable-extensions";
    "--disable-notifications"; "--window-size=1920,1080";
    "--disable-blink-features=AutomationControlled" ]
  ++ (if truthy_opt (chrome_user_data_dir settings)
         && truthy_opt (chrome_profile settings)
      then [ "--user-data-dir=" +:+ default "" (chrome_user_data_dir settings);
             "--profile-directory=" +:+ default "" (chrome_profile settings) ]
      else []).

Definition chrome_experimental : list (string * list string) :=
  [ ("excludeSwitches", ["enable-logging"]) ].

Definition create_driver : M driver :=
  path ← call CInstall;
  driver ← new_chrome path chrome_arguments chrome_experimental;
  call (CSetPageLoadTimeout driver (browser_timeout settings + 30)) ;;
  mret driver.

Definition get_driver : M driver :=
  λ s, match persistent_driver s with
       | None =>
           match create_driver s with
           | (Val d, s') => (Val d, State (trace s') (Some d))
           | (Exc e, s') => (Exc e, s')
           end
       | Some d => (Val d, s)
       end.

(** ** Login *)

Definition LOGIN_URL : string := "https://secure.sarsefiling.co.za/app/login".
Definition NEXT_XPATH : string :=
  "//button[.//span[normalize-space(text())='Next']]".
Definition LOGIN_XPATH : string :=
  "//button[.//span[normalize-space(text())='Login']]".
Definition SCROLL_JS : string := "arguments[0].scrollIntoView(true);".
Definition CLICK_JS : string := "arguments[0].click();".

(** [try: btn.click() except: driver.execute_script("arguments[0].click();", btn)] *)
Definition click (d : driver) (btn : element) : M unit :=
  try_except (call (CClick btn)) (λ _, call (CExecuteScript d CLICK_JS btn)).

(** The condition of the last wait:
    ["/app/login" not in d.current_url.lower() and
     "/app/auth/password" not in d.current_url.lower()]
    ([and] reads the URL a second time only when the first test holds). *)
Definition left_login_pages (d : driver) : M bool :=
  url1 ← call (CCurrentUrl d);
  if negb (contains "/app/login" (lower url1)) then
    url2 ← call (CCurrentUrl d);
    mret (negb (contains "/app/auth/password" (lower url2)))
  else mret false.

Definition login_ok (current_url : string) : dict :=
  {[ "status" := "ok"; "message" := "Login successful";
     "current_url" := current_url ]}.

Definition login_failed (e : exn) (screenshot_path : string) : dict :=
  {[ "status" := "error"; "message" := "Login failed: " +:+ exn_text e;
     "screenshot" := screenshot_path ]}.

Definition login_steps (d : driver) (username password : json) : M dict :=
  call (CGet d LOGIN_URL) ;;
  let timeout := browser_timeout settings in
  username_input ← call (CWaitPresence d timeout (ById "username"));
  call (CClear username_input) ;;
  call (CSendKeys username_input username) ;;
  next_btn ← call (CWaitPresence d timeout (ByXPath NEXT_XPATH));
  call (CExecuteScript d SCROLL_JS next_btn) ;;
  sleep 500 ;;
  click d next_btn ;;
  call (CWaitUrlContains d timeout "/app/auth/password") ;;
  password_input ← call (CWaitPresence d timeout (ById "password"));
  call (CClear password_input) ;;
  call (CSendKeys password_input password) ;;
  login_btn ← call (CWaitPresence d timeout (ByXPath LOGIN_XPATH));
  call (CExecuteScript d SCROLL_JS login_btn) ;;
  sleep 500 ;;
  click d login_btn ;;
  until (left_login_pages d) ;;
  current_url ← call (CCurrentUrl d);
  mret (login_ok current_url).

Definition login_except (d : driver) (e : exn) : M dict :=
  ts ← time_time;
  let screenshot_path := "screenshot_" +:+ str_int ts +:+ ".png" in
  try_except (call (CSaveScreenshot d screenshot_path)) (λ _, mret ()) ;;
  mret (login_failed e screenshot_path).

Definition login_action (d : driver) (username password : json) : M dict :=
  try_except (login_steps d username password) (login_except d).

(** ** Scrape dashboard *)

Definition DASHBOARD_URL : string :=
  "https://secure.sarsefiling.co.za/app/dashboard/organization".

Definition scrape_ok (page_text : string) : dict :=
  {[ "status" := "ok"; "dashboard_url" := DASHBOARD_URL; "text" := page_text ]}.

Definition scrape_failed (e : exn) : dict :=
  {[ "status" := "error";
     "message" := "scrape_organization_dashboard failed: " +:+ exn_text e ]}.

Definition scrape_steps (d : driver) : M dict :=
  call (CGet d DASHBOARD_URL) ;;
  call (CWaitPresence d (browser_timeout settings) (ByTagName "body")) ;;
  sleep 3000 ;;
  html ← call (CPageSource d);
  page_text ← call (CSoupGetText html newline);
  mret (scrape_ok page_text).

Definition scrape_organization_dashboard (d : driver) : M dict :=
  try_except (scrape_steps d) (λ e, mret (scrape_failed e)).

(** ** Runner *)

Definition missing_credentials : dict :=
  {[ "status" := "error"; "message" := "Missing 'username' or 'password'" ]}.

Definition unknown_action (action : string) : dict :=
  {[ "status" := "error"; "message" := "Unknown action '" +:+ action +:+ "'" ]}.

Definition unexpected_error (e : exn) : dict :=
  {[ "status" := "error"; "message" := "Unexpected error: " +:+ exn_text e ]}.

(** The string an f-string puts in for [{action}]; [action] is a string
    wherever the program formats it. *)
Definition str_of (v : json) : string :=
  match v with JStr s => s | _ => "" end.

(** Lines 135-154: the [try] block after the driver has been made. *)
Definition run_action_steps (driver : driver) (action payload : json) : M dict :=
  username ← py_get payload "username" JNull;
  password ← py_get payload "password" JNull;
  a ← py_lower action;
  if String.eqb a "login" then
    if negb (truthy username) || negb (truthy password) then
      mret missing_credentials
    else login_action driver username password
  else
    a ← py_lower action;
    if String.eqb a "scrape_dashboard" then
      if negb (truthy username) || negb (truthy password) then
        mret missing_credentials
      else
        login_resp ← login_action driver username password;
        if negb (bool_decide (login_resp !! "status" = Some "ok")) then
          mret login_resp
        else scrape_organization_dashboard driver
    else mret (unknown_action (str_of action)).

(** [driver.quit()] inside [try: ... except: pass] *)
Definition quit_quietly (d : driver) : M unit :=
  try_except (call (CQuit d)) (λ _, mret ()).

(** The local [driver] is [None] until [create_driver()] has returned;
    when it raises, the [except] clause answers and [finally] finds
    nothing to quit. *)
Definition run_action_sync (action payload : json) : M dict :=
  let payload := py_or payload (JObj ∅) in
  λ s, match create_driver s with
       | (Exc e, s') => (Val (unexpected_error e), s')
       | (Val driver, s') =>
           try_finally
             (try_except (run_action_steps driver action payload)
                         (λ e, mret (unexpected_error e)))
             (quit_quietly driver) s'
       end.

(** ** FastAPI endpoints *)

Definition missing_action : dict :=
  {[ "status" := "error"; "message" := "Missing 'action'" ]}.

Definition server_error (e : exn) : dict :=
  {[ "status" := "error"; "message" := "Unexpected server error: " +:+ exn_text e ]}.

(** [executor.submit(task).result(timeout=...)]: the task runs on a
    worker; the caller gets its result (or its exception) when it arrives
    within the timeout, and [TimeoutError] otherwise. *)
Definition submit_result {A} (task : M A) (timeout : Z) : M A :=
  λ s, match task s with
       | (r, s') =>
           match call (CFutureResult timeout) s' with
           | (Val _, s'') => (r, s'')
           | (Exc e, s'') => (Exc e, s'')
           end
       end.

(** [POST /run]; [request_json] is what [await request.json()] does for
    the request: the parsed body, or the exception of the parser. *)
Definition run (request_json : result json) : M dict :=
  try_except
    (body ← lift request_json;
     action ← py_get body "action" JNull;
     payload ← py_get body "payload" (JObj ∅);
     if negb (truthy action) then mret missing_action
     else
       result ← submit_result (run_action_sync action payload) 300;
       mret result)
    (λ e, mret (server_error e)).

(** [GET /ping] *)
Definition ping : dict := {[ "message" := "ping - server up" ]}.

Inductive http_method := GET | POST.

Inductive endpoint := EpRun | EpPing.

(** The routes registered with [@app.post] and [@app.get]. *)
Definition routes : list (http_method * string * endpoint) :=
  [ (POST, "/run", EpRun); (GET, "/ping", EpPing) ].

Record http_request := Request {
  req_method : http_method;
  req_path : string;
  req_json : result json;
}.

Definition method_eqb (a b : http_method) : bool :=
  match a, b with
  | GET, GET | POST, POST => true
  | _, _ => false
  end.

Definition find_route (m : http_method) (path : string) : option endpoint :=
  snd <$> List.find (λ r, method_eqb (fst (fst r)) m && String.eqb (snd (fst r)) path)
                    routes.

(** One request: the endpoint's answer, or [None] when no route of the
    repository matches. *)
Definition handle (rq : http_request) : M (option dict) :=
  match find_route (req_method rq) (req_path rq) with
  | Some EpRun => r ← run (req_json rq); mret (Some r)
  | Some EpPing => mret (Some ping)
  | None => mret None
  end.

(** The server's life: requests handled one after the other ([run] is a
    coroutine that blocks its event loop while it waits for the result,
    [ping] touches nothing). *)
Fixpoint serve (rqs : list http_request) : M (list (option dict)) :=
  match rqs with
  | [] => mret []
  | rq :: rqs' => r ← handle rq; rs ← serve rqs'; mret (r :: rs)
  end.

(** What [quit_quietly d] logs when run in state [s]. *)
Definition quit_event (d : driver) (s : state) : event :=
  Ev (CQuit d) (oracle E (CQuit d) (length (trace s))).

End Program.

(** ** The except clauses, told apart

    The same handlers with [except Exception] (lines 101, 125, 156 and
    179) catching instances of [Exception] only.  The bare [except:]
    clauses of lines 81, 94, 106 and 162 catch everything, as before, and
    the [finally] of the runner runs in either case. *)

Module Strict.
Section Program.

Variable E : env.

Definition login_action (d : driver) (username password : json) : M dict :=
  try_except_Exception (login_steps E d username password) (login_except E d).

Definition scrape_organization_dashboard (d : driver) : M dict :=
  try_except_Exception (scrape_steps E d) (λ e, mret (scrape_failed e)).

Definition run_action_steps (driver : driver) (action payload : json) : M dict :=
  username ← py_get payload "username" JNull;
  password ← py_get payload "password" JNull;
  a ← py_lower action;
  if String.eqb a "login" then
    if negb (truthy username) || negb (truthy password) then
      mret missing_credentials
    else login_action driver username password
  else
    a ← py_lower action;
    if String.eqb a "scrape_dashboard" then
      if negb (truthy username) || negb (truthy password) then
        mret missing_credentials
      else
        login_resp ← login_action driver username password;
        if negb (bool_decide (login_resp !! "status" = Some "ok")) then
          mret login_resp
        else scrape_organization_dashboard driver
    else mret (unknown_action (str_of action)).

Definition run_action_sync (action payload : json) : M dict :=
  let payload := py_or payload (JObj ∅) in
  λ s, match create_driver E s with
       | (Exc e, s') =>
           if isinstance_Exception e then (Val (unexpected_error e), s')
           else (Exc e, s')
       | (Val driver, s') =>
           try_finally
             (try_except_Exception (run_action_steps driver action payload)
                                   (λ e, mret (unexpected_error e)))
             (quit_quietly E driver) s'
       end.

Definition run (request_json : result json) : M dict :=
  try_except_Exception
    (body ← lift request_json;
     action ← py_get body "action" JNull;
     payload ← py_get body "payload" (JObj ∅);
     if negb (truthy action) then mret missing_action
     else
       result ← submit_result E (run_action_sync action payload) 300;
       mret result)
    (λ e, mret (server_error e)).

End Program.
End Strict.

(** * Vocabulary of the properties *)

(** [emits P m]: running [m] only appends events that satisfy [P] and
    leaves [persistent_driver] alone. *)
Definition emits {A} (P : event → Prop) (m : M A) : Prop :=
  ∀ s, (∃ evs, trace (m s).2 = trace s ++ evs ∧ Forall P evs)
       ∧ persistent_driver (m s).2 = persistent_driver s.

(** [total m]: [m] always returns, it never raises. *)
Definition total {A} (m : M A) : Prop := ∀ s, ∃ a, (m s).1 = Val a.

(** ** Classes of calls *)

(** The calls the login handler can make on driver [d]. *)
Definition login_call (d : driver) (c : lib_call) : Prop :=
  match c with
  | CGet d' url => d' = d ∧ url = LOGIN_URL
  | CWaitPresence d' _ _ | CWaitUrlContains d' _ _ | CExecuteScript d' _ _
  | CCurrentUrl d' | CSaveScreenshot d' _ => d' = d
  | CClear _ | CSendKeys _ _ | CClick _ | CSleep _ | CTime => True
  | _ => False
  end.

(** The calls the scraper can make on driver [d]. *)
Definition scrape_call (d : driver) (c : lib_call) : Prop :=
  match c with
  | CGet d' url => d' = d ∧ url = DASHBOARD_URL
  | CWaitPresence d' _ _ | CPageSource d' => d' = d
  | CSoupGetText _ _ | CSleep _ => True
  | _ => False
  end.

(** The driver a call is made on, when it names one. *)
Definition call_driver (c : lib_call) : option driver :=
  match c with
  | CSetPageLoadTimeout d _ | CGet d _ | CWaitPresence d _ _
  | CWaitUrlContains d _ _ | CExecuteScript d _ _ | CCurrentUrl d
  | CSaveScreenshot d _ | CPageSource d | CQuit d => Some d
  | _ => None
  end.

(** The name the login handler gives the screenshot taken at time [ts]. *)
Definition screenshot_name (ts : Z) : string :=
  "screenshot_" +:+ str_int ts +:+ ".png".

(** What clicking button [el] leaves in the log: the click itself, and
    the scripted click when the first one raised [e]. *)
Definition click_events (d : driver) (el : element) (failed : option exn)
    (r : result unit) : list event :=
  match failed with
  | None => [Ev (CClick el) r]
  | Some e => [Ev (CClick el) (Exc e); Ev (CExecuteScript d CLICK_JS el) r]
  end.

(** The log of a login that went through, in order: open the login page,
    wait for and fill in the user name, press Next, wait for the password
    page, fill in the password, press Login, poll the URL (the polls that
    still saw a login page are [polling], the reads that passed the test
    are [url1] and [url2]) and read the URL that is reported. *)
Definition login_sequence (d : driver) (username password : json)
    (user_el next_el pass_el login_el : element) (failed1 failed2 : option exn)
    (polling : list event) (url1 url2 url : string) : list event :=
  [ Ev (CGet d LOGIN_URL) (Val ());
    Ev (CWaitPresence d 30 (ById "username")) (Val user_el);
    Ev (CClear user_el) (Val ());
    Ev (CSendKeys user_el username) (Val ());
    Ev (CWaitPresence d 30 (ByXPath NEXT_XPATH)) (Val next_el);
    Ev (CExecuteScript d SCROLL_JS next_el) (Val ());
    Ev (CSleep 500) (Val ()) ]
  ++ click_events d next_el failed1 (Val ())
  ++ [ Ev (CWaitUrlContains d 30 "/app/auth/password") (Val ());
       Ev (CWaitPresence d 30 (ById "password")) (Val pass_el);
       Ev (CClear pass_el) (Val ());
       Ev (CSendKeys pass_el password) (Val ());
       Ev (CWaitPresence d 30 (ByXPath LOGIN_XPATH)) (Val login_el);
       Ev (CExecuteScript d SCROLL_JS login_el) (Val ());
       Ev (CSleep 500) (Val ()) ]
  ++ click_events d login_el failed2 (Val ())
  ++ polling
  ++ [ Ev (CCurrentUrl d) (Val url1);
       Ev (CCurrentUrl d) (Val url2);
       Ev (CCurrentUrl d) (Val url) ].

(** The event is a navigation to [url]. *)
Definition visits (url : string) (e : event) : Prop :=
  ∃ d, ev_call e = CGet d url.

(** The same state with another value in [persistent_driver]. *)
Definition with_pd (p : option driver) (s : state) : state :=
  State (trace s) p.

(** [pd_blind m]: [m] neither looks at [persistent_driver] nor changes it. *)
Definition pd_blind {A} (m : M A) : Prop :=
  ∀ s p, m (with_pd p s) = ((m s).1, with_pd p (m s).2).

(** Every driver named in the log has a number below the next one. *)
Definition drivers_known (s : state) : Prop :=
  Forall (λ e, ∀ d, call_driver (ev_call e) = Some d → (d < launched s)%nat)
         (trace s).

(** [keeps_known m]: [m] keeps [drivers_known]. *)
Definition keeps_known {A} (m : M A) : Prop :=
  ∀ s, drivers_known s → drivers_known (m s).2.

(** The event is not a call of [save_screenshot]. *)
Definition no_screenshot (e : event) : Prop :=
  ∀ d path, ev_call e ≠ CSaveScreenshot d path.

(** The dictionaries the runner builds, each with what the log of the run
    then says about screenshots. *)
Inductive runner_answer (evs : list event) : dict → Prop :=
  | RLoginOk url :
      Forall no_screenshot evs → runner_answer evs (login_ok url)
  | RLoginFailed e d ts r :
      In (Ev (CSaveScreenshot d (screenshot_name ts)) r) evs →
      runner_answer evs (login_failed e (screenshot_name ts))
  | RScrapeOk text :
      Forall no_screenshot evs → runner_answer evs (scrape_ok text)
  | RScrapeFailed e :
      Forall no_screenshot evs → runner_answer evs (scrape_failed e)
  | RMissingCredentials :
      Forall no_screenshot evs → runner_answer evs missing_credentials
  | RUnknownAction a :
      Forall no_screenshot evs → runner_answer evs (unknown_action a)
  | RUnexpected e :
      Forall no_screenshot evs → runner_answer evs (unexpected_error e).

(** The actions the runner has a branch for. *)
Definition handled (a : string) : bool :=
  String.eqb (lower a) "login" || String.eqb (lower a) "scrape_dashboard".

(** ** Sample environments *)

(** Every call succeeds; the browser is already past the login pages
    when the URL is first read. *)
Definition answer_ok (c : lib_call) : result (ret_type c) :=
  match c with
  | CInstall => Val "/opt/chromedriver"
  | CCurrentUrl _ => Val "https://secure.sarsefiling.co.za/app/landing"
  | CPageSource _ => Val "<html><body>Org</body></html>"
  | CSoupGetText _ _ => Val "Org"
  | CWaitPresence _ _ _ => Val 4%nat
  | CTime => Val 0
  | _ => Val ()
  end.

Definition fine : env :=
  Env (λ c _, answer_ok c) (λ _, 1700000000) (λ _, 3%nat) (λ _, None).

(** As [fine], but the [k]-th call of the server's life raises [e]. *)
Definition fails_at (k : nat) (e : exn) : env :=
  Env (λ c n, if (n =? k)%nat then Exc e else answer_ok c)
      (λ _, 1700000000) (λ _, 3%nat) (λ _, None).

Definition boom : exn := Exn "WebDriverException" "Message: chrome not reachable".

(** Ctrl-C, or a signal handler that raises it. *)
Definition KeyboardInterrupt : exn := Exn "KeyboardInterrupt" "".

Definition creds : gmap string json :=
  {[ "username" := JStr "taxpayer"; "password" := JStr "secret" ]}.

(** The user name is there, the password is the empty string. *)
Definition no_password : gmap string json :=
  {[ "username" := JStr "taxpayer"; "password" := JStr "" ]}.

(** The browser never leaves the login page. *)
Definition stuck : env :=
  Env (λ c _, match c return result (ret_type c) with
              | CCurrentUrl _ => Val "https://secure.sarsefiling.co.za/app/Login"
              | c' => answer_ok c'
              end)
      (λ _, 1700000000) (λ _, 2%nat) (λ _, None).



(** ** The login handler in two halves *)

Section Halves.

Variable E : env.

(** Lines 69-82 of [login_action]: the login page up to the click on
    Next. *)
Definition login_user_part (d : driver) (username : json) : M unit :=
  call E (CGet d LOGIN_URL) ;;
  let timeout := browser_timeout (settings E) in
  username_input ← call E (CWaitPresence d timeout (ById "username"));
  call E (CClear username_input) ;;
  call E (CSendKeys username_input username) ;;
  next_btn ← call E (CWaitPresence d timeout (ByXPath NEXT_XPATH));
  call E (CExecuteScript d SCROLL_JS next_btn) ;;
  sleep 500 ;;
  click E d next_btn.

(** Lines 85-99: the password page, after the wait of line 84. *)
Definition login_password_part (d : driver) (password : json) : M dict :=
  let timeout := browser_timeout (settings E) in
  password_input ← call E (CWaitPresence d timeout (ById "password"));
  call E (CClear password_input) ;;
  call E (CSendKeys password_input password) ;;
  login_btn ← call E (CWaitPresence d timeout (ByXPath LOGIN_XPATH));
  call E (CExecuteScript d SCROLL_JS login_btn) ;;
  sleep 500 ;;
  click E d login_btn ;;
  until E (left_login_pages E d) ;;
  current_url ← call E (CCurrentUrl d);
  mret (login_ok current_url).

End Halves.

(** ** More vocabulary *)

(** The event is the wait of line 84 having returned: the browser of [d]
    is on the password page. *)
Definition password_page_reached (d : driver) (e : event) : bool :=
  match e with
  | Ev (CWaitUrlContains d' _ part) (Val _) =>
      (d' =? d)%nat && String.eqb part "/app/auth/password"
  | _ => false
  end.

(** A monitor over a log: every [send_keys] before the password page is
    reached types [username], every one after it types [password]. *)
Fixpoint keys_in_order (d : driver) (username password : json)
    (reached : bool) (evs : list event) : Prop :=
  match evs with
  | [] => True
  | e :: evs' =>
      (∀ el keys, ev_call e = CSendKeys el keys →
                  keys = if reached then password else username)
      ∧ keys_in_order d username password
                      (reached || password_page_reached d e) evs'
  end.

Definition quit_call (e : event) : bool :=
  match ev_call e with CQuit _ => true | _ => false end.

Definition quits (evs : list event) : nat := length (filter quit_call evs).

(** The event is a call that returned. *)
Definition returned (e : event) : Prop :=
  match e with Ev _ (Val _) => True | Ev _ (Exc _) => False end.

(** An environment in which no library call raises. *)
Definition obliging (E : env) : Prop :=
  ∀ c n, ∃ v, oracle E c n = Val v.

(** An environment in which the browser is never seen on a login page. *)
Definition past_login (E : env) : Prop :=
  ∀ d n url, oracle E (CCurrentUrl d) n = Val url →
             contains "/app/login" (lower url) = false
             ∧ contains "/app/auth/password" (lower url) = false.

(** The fixed switches of [create_driver]. *)
Definition fixed_arguments : list string :=
  [ "--headless=new"; "--disable-gpu"; "--no-sandbox";
    "--disable-dev-shm-usage"; "--disable-extensions";
    "--disable-notifications"; "--window-size=1920,1080";
    "--disable-blink-features=AutomationControlled" ].

(** The requests that reach [run]. *)
Definition reaches_run (rq : http_request) : bool :=
  method_eqb (req_method rq) POST && String.eqb (req_path rq) "/run".

(** As [fine], with a Chrome profile in the process environment. *)
Definition with_profile : env :=
  Env (λ c _, answer_ok c) (λ _, 1700000000) (λ _, 3%nat)
      (λ k, if String.eqb k "CHROME_USER_DATA_DIR" then Some "/data/chrome"
            else if String.eqb k "CHROME_PROFILE_DIR" then Some "Default"
            else None).

(** [orderly m]: a run of [m] that returns has seen all its calls return; a
    run that raises stops at the call that raised, after calls that all
    returned. *)
Definition orderly {A} (m : M A) : Prop :=
  ∀ s, match m s with
       | (Val _, s') => ∃ evs, trace s' = trace s ++ evs ∧ Forall returned evs
       | (Exc e, s') =>
           ∃ pre c, trace s' = trace s ++ pre ++ [Ev c (Exc e)]
                    ∧ Forall returned pre
       end.

(** The attribute error of the runner's try block on values of the wrong
    type. *)
Definition type_error (action payload : json) : option exn :=
  match payload with
  | JObj _ =>
      match action with
      | JStr _ => None
      | _ => Some (AttributeError action "lower")
      end
  | _ => Some (AttributeError payload "get")
  end.
(** What a handler working on driver [d] and page [url] may log: calls on
    [d] only, navigation to [url] only, no launch and no quit. *)
Definition footprint (d : driver) (url : string) (e : event) : Prop :=
  (∀ d', call_driver (ev_call e) = Some d' → d' = d)
  ∧ (∀ d' url', ev_call e = CGet d' url' → url' = url)
  ∧ launch e = false
  ∧ quit_call e = false.
(** How many of the requests reach [run]. *)
Definition run_requests (rqs : list http_request) : nat :=
  length (filter reaches_run rqs).

(** [throws P m]: every exception that leaves [m] satisfies [P]. *)
Definition throws {A} (P : exn → Prop) (m : M A) : Prop :=
  ∀ s e s', m s = (Exc e, s') → P e.

(** An environment whose calls raise instances of [Exception] only. *)
Definition only_Exceptions (E : env) : Prop :=
  ∀ c n e, oracle E c n = Exc e → isinstance_Exception e = true.


(** * Properties *)

Section Properties.

Variable E : env.

(** ** Running the monad *)

Lemma Val_inj {A} (a b : A) : Val a = Val b → a = b.
Proof. by intros [= ->]. Qed.

Lemma run_bind {A B} (m : M A) (f : A → M B) s :
  (m ≫= f) s = match m s with
               | (Val a, s') => f a s'
               | (Exc e, s') => (Exc e, s')
               end.
Proof. reflexivity. Qed.

(** A computation that returned went through both halves of a bind. *)
Lemma bind_val_inv {A B} (m : M A) (f : A → M B) s b s' :
  (m ≫= f) s = (Val b, s') →
  ∃ a s1, m s = (Val a, s1) ∧ f a s1 = (Val b, s').
Proof.
  rewrite run_bind. destruct (m s) as [[a|e] s1]; [eauto | discriminate].
Qed.

Lemma call_val_inv c s a s' :
  call E c s = (Val a, s') →
  oracle E c (length (trace s)) = Val a ∧ s' = log (Ev c (Val a)) s.
Proof.
  unfold call. intros H. injection H as H1 H2.
  split; [done | by rewrite <- H2, H1].
Qed.

Lemma sleep_inv ms s r s' :
  sleep ms s = (r, s') → r = Val () ∧ s' = log (Ev (CSleep ms) (Val ())) s.
Proof. unfold sleep. by intros [= <- <-]. Qed.

Lemma trace_log e s : trace (log e s) = trace s ++ [e].
Proof. reflexivity. Qed.

Lemma launches_app evs1 evs2 :
  launches (evs1 ++ evs2) = (launches evs1 + launches evs2)%nat.
Proof. unfold launches. by rewrite filter_app, length_app. Qed.

Lemma launched_log e s :
  launched (log e s) = (launched s + if launch e then 1 else 0)%nat.
Proof.
  unfold launched. rewrite trace_log, launches_app. f_equal.
  unfold launches. cbn. by destruct (launch e).
Qed.

(** Events that launch no browser leave the numbering where it was. *)
Lemma launches_none (P : event → Prop) evs :
  (∀ e, P e → launch e = false) → Forall P evs → launches evs = 0%nat.
Proof.
  intros HP. induction 1 as [|e evs He _ IH]; [done | ].
  change (e :: evs) with ([e] ++ evs). rewrite launches_app, IH.
  unfold launches. cbn. by rewrite (HP e He).
Qed.

(** ** What a computation adds to the log *)

Lemma emits_nothing {A} P (r : result A) : emits P (lift r).
Proof. intros s. split; [exists []; by rewrite app_nil_r | done]. Qed.

Lemma emits_mret {A} P (a : A) : emits P (mret a).
Proof. apply (emits_nothing P (Val a)). Qed.

Lemma emits_raise {A} P e : emits P (@raise A e).
Proof. apply (emits_nothing P (Exc e)). Qed.

Lemma emits_log {A} (P : event → Prop) (m : M A) :
  (∀ s, ∃ e, P e ∧ (m s).2 = log e s) → emits P m.
Proof.
  intros H s. destruct (H s) as (e & He & ->).
  split; [exists [e]; split; [done | by constructor] | done].
Qed.

Lemma emits_call P c : (∀ r, P (Ev c r)) → emits P (call E c).
Proof. intros H. apply emits_log. intros s. eexists. split; [apply H | done]. Qed.

Lemma emits_sleep (P : event → Prop) ms :
  P (Ev (CSleep ms) (Val ())) → emits P (sleep ms).
Proof. intros H. apply emits_log. intros s. by eexists. Qed.

Lemma emits_time (P : event → Prop) :
  (∀ t, P (Ev CTime (Val t))) → emits P (time_time E).
Proof. intros H. apply emits_log. intros s. eexists. split; [apply H | done]. Qed.

Lemma emits_new_chrome P path args exp :
  (∀ r, P (Ev (CChrome path args exp) r)) → emits P (new_chrome E path args exp).
Proof.
  intros H. apply emits_log. intros s. unfold new_chrome.
  destruct (oracle E _ _) as [u|e]; eexists; (split; [apply H | done]).
Qed.

(** Two computations in a row. *)
Lemma emits_seq {A B} P (m : M A) (k : state → result B * state) s :
  emits P m →
  (∀ s1, (∃ evs, trace (k s1).2 = trace s1 ++ evs ∧ Forall P evs)
         ∧ persistent_driver (k s1).2 = persistent_driver s1) →
  (∃ evs, trace (k (m s).2).2 = trace s ++ evs ∧ Forall P evs)
  ∧ persistent_driver (k (m s).2).2 = persistent_driver s.
Proof.
  intros Hm Hk.
  destruct (Hm s) as ((evs1 & Ht1 & HP1) & Hp1).
  destruct (Hk (m s).2) as ((evs2 & Ht2 & HP2) & Hp2).
  split; [ | congruence].
  exists (evs1 ++ evs2). split; [ | by apply Forall_app].
  by rewrite Ht2, Ht1, app_assoc.
Qed.

Lemma emits_bind {A B} P (m : M A) (f : A → M B) :
  emits P m → (∀ a, emits P (f a)) → emits P (m ≫= f).
Proof.
  intros Hm Hf s. rewrite run_bind.
  destruct (m s) as [[a|e] s1] eqn:Hms.
  - replace s1 with (m s).2 by (by rewrite Hms).
    apply (emits_seq P m (f a)); [done | apply Hf].
  - replace s1 with (m s).2 by (by rewrite Hms).
    apply (emits_seq P m (lift (Exc e))); [done | apply emits_nothing].
Qed.

Lemma emits_try_except {A} P (body : M A) handler :
  emits P body → (∀ e, emits P (handler e)) → emits P (try_except body handler).
Proof.
  intros Hm Hf s. unfold try_except.
  destruct (body s) as [[a|e] s1] eqn:Hms.
  - replace s1 with (body s).2 by (by rewrite Hms).
    apply (emits_seq P body (lift (Val a))); [done | apply emits_nothing].
  - replace s1 with (body s).2 by (by rewrite Hms).
    apply (emits_seq P body (handler e)); [done | apply Hf].
Qed.

Lemma emits_try_finally {A} P (body : M A) cleanup :
  emits P body → emits P cleanup → emits P (try_finally body cleanup).
Proof.
  intros Hm Hc s. unfold try_finally.
  destruct (body s) as [r s1] eqn:Hms.
  replace s1 with (body s).2 by (by rewrite Hms).
  destruct (emits_seq P body cleanup s Hm Hc) as (Ht & Hp).
  by destruct (cleanup (body s).2) as [[u|e] s2].
Qed.

Lemma emits_if {A} P (b : bool) (m1 m2 : M A) :
  emits P m1 → emits P m2 → emits P (if b then m1 else m2).
Proof. by destruct b. Qed.

Lemma emits_mono {A} (P Q : event → Prop) (m : M A) :
  (∀ e, P e → Q e) → emits P m → emits Q m.
Proof.
  intros HPQ Hm s. destruct (Hm s) as ((evs & Ht & HP) & Hrest).
  split; [ | done]. exists evs. split; [done | ].
  by apply (Forall_impl P).
Qed.

Lemma emits_until_loop P more method :
  emits P method → emits P (until_loop more method).
Proof.
  intros Hm. induction more as [|more IH]; intros s; cbn [until_loop];
    destruct (method s) as [[[]|e] s1] eqn:Hms;
    replace s1 with (method s).2 by (by rewrite Hms);
    try destruct (String.eqb _ _).
  all: try (apply (emits_seq P method (lift (Val ()))); [done | apply emits_nothing]).
  all: try (apply (emits_seq P method (lift (Exc e))); [done | apply emits_nothing]).
  all: try (apply (emits_seq P method (raise TimeoutException)); [done | apply emits_raise]).
  all: by apply (emits_seq P method (until_loop more method)).
Qed.

Lemma emits_until P method : emits P method → emits P (until E method).
Proof. intros Hm s. unfold until. by apply emits_until_loop. Qed.

Ltac emits_step :=
  first
    [ apply emits_mret | apply emits_raise | apply emits_nothing
    | apply emits_bind; [ | intros ? ]
    | apply emits_try_except; [ | intros ? ]
    | apply emits_try_finally
    | apply emits_until
    | apply emits_if
    | apply emits_call; intros ?; cbn; try done
    | apply emits_sleep; cbn; try done
    | apply emits_time; intros ?; cbn; try done
    | apply emits_new_chrome; intros ?; cbn; try done ].

Ltac emits_auto := cbv zeta; repeat emits_step.

(** ** The handlers' calls *)

Lemma click_emits d btn : emits (λ e, login_call d (ev_call e)) (click E d btn).
Proof. unfold click. emits_auto. Qed.

Lemma left_login_pages_emits d :
  emits (λ e, ev_call e = CCurrentUrl d) (left_login_pages E d).
Proof. unfold left_login_pages. emits_auto. Qed.

Lemma login_steps_emits d u p :
  emits (λ e, login_call d (ev_call e)) (login_steps E d u p).
Proof.
  unfold login_steps. emits_auto.
Qed.

Lemma login_except_emits d e :
  emits (λ e, login_call d (ev_call e)) (login_except E d e).
Proof. unfold login_except. emits_auto. Qed.

Lemma login_action_emits d u p :
  emits (λ e, login_call d (ev_call e)) (login_action E d u p).
Proof.
  unfold login_action. apply emits_try_except;
    [apply login_steps_emits | apply login_except_emits].
Qed.

Lemma scrape_emits d :
  emits (λ e, scrape_call d (ev_call e)) (scrape_organization_dashboard E d).
Proof. unfold scrape_organization_dashboard. emits_auto. Qed.

Lemma py_get_emits P obj key dflt : emits P (py_get obj key dflt).
Proof. destruct obj; apply emits_nothing. Qed.

Lemma py_lower_emits P obj : emits P (py_lower obj).
Proof. destruct obj; apply emits_nothing. Qed.

(** Between [create_driver] and [quit], the runner only logs in and
    scrapes on its own driver. *)
Lemma run_action_steps_emits d action payload :
  emits (λ e, login_call d (ev_call e) ∨ scrape_call d (ev_call e))
        (run_action_steps E d action payload).
Proof.
  unfold run_action_steps.
  repeat first
    [ apply py_get_emits | apply py_lower_emits
    | eapply emits_mono; [ | apply login_action_emits]; by (intros; left)
    | eapply emits_mono; [ | apply scrape_emits]; by (intros; right)
    | emits_step ].
Qed.

Lemma quit_quietly_emits d :
  emits (λ e, ev_call e = CQuit d) (quit_quietly E d).
Proof. unfold quit_quietly. emits_auto. Qed.

(** ** Computations that never raise *)

Lemma total_mret {A} (a : A) : total (mret a).
Proof. intros s. by exists a. Qed.

Lemma total_sleep ms : total (sleep ms).
Proof. intros s. by exists (). Qed.

Lemma total_time : total (time_time E).
Proof. intros s. by eexists. Qed.

Lemma total_bind {A B} (m : M A) (f : A → M B) :
  total m → (∀ a, total (f a)) → total (m ≫= f).
Proof.
  intros Hm Hf s. rewrite run_bind. destruct (Hm s) as [a Ha].
  destruct (m s) as [[a'|e] s1]; [apply Hf | discriminate].
Qed.

Lemma total_try_except {A} (body : M A) handler :
  (∀ e, total (handler e)) → total (try_except body handler).
Proof.
  intros Hh s. unfold try_except.
  destruct (body s) as [[a|e] s1]; [by exists a | apply Hh].
Qed.

Lemma total_try_finally {A} (body : M A) cleanup :
  total body → total cleanup → total (try_finally body cleanup).
Proof.
  intros Hb Hc s. unfold try_finally. destruct (Hb s) as [a Ha].
  destruct (body s) as [r s1]. destruct (Hc s1) as [u Hu].
  destruct (cleanup s1) as [[u'|e] s2]; [by exists a | discriminate].
Qed.

Lemma login_except_total d e : total (login_except E d e).
Proof.
  unfold login_except. apply total_bind; [apply total_time | intros ts].
  apply total_bind; [ | intros _; apply total_mret].
  apply total_try_except. intros _. apply total_mret.
Qed.

Lemma login_action_total d u p : total (login_action E d u p).
Proof. apply total_try_except, login_except_total. Qed.

Lemma scrape_total d : total (scrape_organization_dashboard E d).
Proof. apply total_try_except. intros e. apply total_mret. Qed.

Lemma quit_quietly_total d : total (quit_quietly E d).
Proof. apply total_try_except. intros e. apply total_mret. Qed.

Lemma run_action_sync_total action payload : total (run_action_sync E action payload).
Proof.
  intros s. unfold run_action_sync.
  destruct (create_driver E s) as [[d|e] s1]; [ | by eexists].
  apply total_try_finally; [ | apply quit_quietly_total].
  apply total_try_except. intros e. apply total_mret.
Qed.

Lemma run_total request : total (run E request).
Proof. apply total_try_except. intros e. apply total_mret. Qed.

(** ** The except clauses *)

(** The login handler's except clause: read the clock, try to save the
    screenshot, answer with the error dictionary whatever the attempt
    did. *)
Lemma login_except_run d e s :
  let ts := clock E (length (trace s)) in
  let s1 := log (Ev CTime (Val ts)) s in
  let shot := CSaveScreenshot d (screenshot_name ts) in
  login_except E d e s =
    (Val (login_failed e (screenshot_name ts)),
     log (Ev shot (oracle E shot (length (trace s1)))) s1).
Proof.
  cbv zeta. unfold login_except. rewrite run_bind. cbn [time_time].
  rewrite run_bind. unfold try_except, call.
  by destruct (oracle E _ (length (trace (log _ s)))) as [[]|e'].
Qed.

Lemma login_action_val d u p s r s' :
  login_steps E d u p s = (Val r, s') → login_action E d u p s = (Val r, s').
Proof. intros H. unfold login_action, try_except. by rewrite H. Qed.

Lemma login_action_exc d u p s e s' :
  login_steps E d u p s = (Exc e, s') →
  login_action E d u p s = login_except E d e s'.
Proof. intros H. unfold login_action, try_except. by rewrite H. Qed.

(** ** The order of a login *)

Lemma call_val_trace c s a s' :
  call E c s = (Val a, s') → trace s' = trace s ++ [Ev c (Val a)].
Proof. intros H. by apply call_val_inv in H as [_ ->]. Qed.

Lemma sleep_trace ms s r s' :
  sleep ms s = (r, s') → trace s' = trace s ++ [Ev (CSleep ms) (Val ())].
Proof. intros H. by apply sleep_inv in H as [_ ->]. Qed.

Ltac call_inv H :=
  match type of H with
  | call _ ?c _ = _ => apply (call_val_inv c) in H as [_ ->]
  end.

Ltac call_trace H :=
  match type of H with
  | call _ ?c _ = _ => apply (call_val_trace c) in H
  | sleep _ _ = _ => apply sleep_trace in H
  end.

Lemma click_val_trace d btn s u s' :
  click E d btn s = (Val u, s') →
  ∃ failed, trace s' = trace s ++ click_events d btn failed (Val ()).
Proof.
  unfold click, try_except. intros H.
  destruct (call E (CClick btn) s) as [[[]|e] s1] eqn:Hc.
  - injection H as _ <-. exists None. by call_trace Hc.
  - destruct u. call_trace H. exists (Some e).
    unfold call in Hc. injection Hc as Hc <-.
    by rewrite H, trace_log, Hc, <- app_assoc.
Qed.

(** A wait that returned ended on a poll at which the condition held. *)
Lemma until_loop_val_inv P method more s u s' :
  emits P method →
  until_loop more method s = (Val u, s') →
  ∃ s0 polling,
    trace s0 = trace s ++ polling ∧ Forall P polling
    ∧ method s0 = (Val true, s').
Proof.
  intros Hm. revert s. induction more as [|more IH]; intros s; cbn [until_loop];
    destruct (Hm s) as ((evs & Ht & HP) & _);
    destruct (method s) as [[[]|e] s1] eqn:Hms; simpl in Ht;
    try destruct (String.eqb _ _); intros H; try discriminate.
  all: first
    [ injection H as _ <-; exists s, []; by rewrite app_nil_r
    | apply IH in H as (s0 & polling & Ht0 & HP0 & Hm0);
      exists s0, (evs ++ polling);
      (split; [by rewrite Ht0, Ht, app_assoc | split; [by apply Forall_app | done]]) ].
Qed.

Lemma until_val_inv P method s u s' :
  emits P method →
  until E method s = (Val u, s') →
  ∃ s0 polling,
    trace s0 = trace s ++ polling ∧ Forall P polling
    ∧ method s0 = (Val true, s').
Proof. unfold until. apply until_loop_val_inv. Qed.

Lemma left_login_pages_true d s s' :
  left_login_pages E d s = (Val true, s') →
  ∃ url1 url2,
    contains "/app/login" (lower url1) = false
    ∧ contains "/app/auth/password" (lower url2) = false
    ∧ trace s' = trace s ++ [Ev (CCurrentUrl d) (Val url1);
                             Ev (CCurrentUrl d) (Val url2)].
Proof.
  unfold left_login_pages. intros H.
  apply bind_val_inv in H as (url1 & s1 & H1 & H). call_trace H1.
  destruct (contains "/app/login" (lower url1)) eqn:Hc1; simpl in H;
    [discriminate | ].
  apply bind_val_inv in H as (url2 & s2 & H2 & H). call_trace H2.
  injection H as H <-.
  exists url1, url2. rewrite H2, H1, <- app_assoc.
  by apply negb_true_iff in H.
Qed.

Lemma login_steps_val_inv d u p s r s' :
  login_steps E d u p s = (Val r, s') →
  ∃ user_el next_el pass_el login_el failed1 failed2 polling url1 url2 url,
    trace s' = trace s ++ login_sequence d u p user_el next_el pass_el login_el
                                         failed1 failed2 polling url1 url2 url
    ∧ Forall (λ e, ev_call e = CCurrentUrl d) polling
    ∧ contains "/app/login" (lower url1) = false
    ∧ contains "/app/auth/password" (lower url2) = false
    ∧ r = login_ok url.
Proof.
  unfold login_steps. cbv zeta. change (browser_timeout (settings E)) with 30.
  intros H.
  apply bind_val_inv in H as ([] & s1 & H1 & H). call_trace H1.
  apply bind_val_inv in H as (user_el & s2 & H2 & H). call_trace H2.
  apply bind_val_inv in H as ([] & s3 & H3 & H). call_trace H3.
  apply bind_val_inv in H as ([] & s4 & H4 & H). call_trace H4.
  apply bind_val_inv in H as (next_el & s5 & H5 & H). call_trace H5.
  apply bind_val_inv in H as ([] & s6 & H6 & H). call_trace H6.
  apply bind_val_inv in H as ([] & s7 & H7 & H). call_trace H7.
  apply bind_val_inv in H as ([] & s8 & H8 & H).
  apply click_val_trace in H8 as [failed1 H8].
  apply bind_val_inv in H as ([] & s9 & H9 & H). call_trace H9.
  apply bind_val_inv in H as (pass_el & s10 & H10 & H). call_trace H10.
  apply bind_val_inv in H as ([] & s11 & H11 & H). call_trace H11.
  apply bind_val_inv in H as ([] & s12 & H12 & H). call_trace H12.
  apply bind_val_inv in H as (login_el & s13 & H13 & H). call_trace H13.
  apply bind_val_inv in H as ([] & s14 & H14 & H). call_trace H14.
  apply bind_val_inv in H as ([] & s15 & H15 & H). call_trace H15.
  apply bind_val_inv in H as ([] & s16 & H16 & H).
  apply click_val_trace in H16 as [failed2 H16].
  apply bind_val_inv in H as ([] & s17 & H17 & H).
  apply (until_val_inv _ _ _ _ _ (left_login_pages_emits d)) in H17
    as (s0 & polling & Hpoll & HP & Htrue).
  apply left_login_pages_true in Htrue as (url1 & url2 & Hu1 & Hu2 & H17).
  apply bind_val_inv in H as (url & s18 & H18 & H). call_trace H18.
  injection H as <- <-.
  exists user_el, next_el, pass_el, login_el, failed1, failed2, polling,
    url1, url2, url.
  split; [ | done].
  rewrite H18, H17, Hpoll, H16, H15, H14, H13, H12, H11, H10, H9, H8, H7, H6,
    H5, H4, H3, H2, H1.
  unfold login_sequence. by rewrite <- !app_assoc.
Qed.

(** ** The runner, step by step *)

Lemma quit_quietly_run d s :
  quit_quietly E d s = (Val (), log (quit_event E d s) s).
Proof.
  unfold quit_quietly, try_except, call, quit_event.
  by destruct (oracle E (CQuit d) _) as [[]|e].
Qed.

Lemma try_finally_quit {A} (body : M A) d s :
  try_finally body (quit_quietly E d) s =
    ((body s).1, log (quit_event E d (body s).2) (body s).2).
Proof.
  unfold try_finally. destruct (body s) as [r s1].
  by rewrite quit_quietly_run.
Qed.

Lemma create_driver_val_inv s d s1 :
  create_driver E s = (Val d, s1) →
  d = launched s ∧ launched s1 = S (launched s)
  ∧ persistent_driver s1 = persistent_driver s
  ∧ ∃ path,
      trace s1 = trace s ++
        [ Ev CInstall (Val path);
          Ev (CChrome path (chrome_arguments E) chrome_experimental) (Val ());
          Ev (CSetPageLoadTimeout d 60) (Val ()) ].
Proof.
  unfold create_driver. change (browser_timeout (settings E) + 30) with 60.
  intros H.
  apply bind_val_inv in H as (path & s2 & H1 & H). call_inv H1.
  apply bind_val_inv in H as (d' & s3 & H2 & H).
  unfold new_chrome in H2.
  destruct (oracle E (CChrome _ _ _) _) as [[]|e]; [ | discriminate].
  injection H2 as <- <-.
  apply bind_val_inv in H as ([] & s4 & H3 & H). call_inv H3.
  injection H as <- <-. cbn [trace persistent_driver log].
  split; [by rewrite launched_log, Nat.add_0_r | ].
  split; [rewrite !launched_log; cbn; lia | ].
  split; [done | ]. exists path. by rewrite <- !app_assoc.
Qed.

Lemma create_driver_emits :
  emits (λ e, match ev_call e with
              | CInstall | CChrome _ _ _ | CSetPageLoadTimeout _ _ => True
              | _ => False
              end) (create_driver E).
Proof. unfold create_driver. emits_auto. Qed.

Lemma run_action_sync_created action payload s d s1 :
  create_driver E s = (Val d, s1) →
  run_action_sync E action payload s =
    try_finally
      (try_except (run_action_steps E d action (py_or payload (JObj ∅)))
                  (λ e, mret (unexpected_error e)))
      (quit_quietly E d) s1.
Proof. intros H. unfold run_action_sync. by rewrite H. Qed.

Lemma run_action_sync_not_created action payload s e s1 :
  create_driver E s = (Exc e, s1) →
  run_action_sync E action payload s = (Val (unexpected_error e), s1).
Proof. intros H. unfold run_action_sync. by rewrite H. Qed.

(** The runner's try block once action and payload are known to be a
    string and a dictionary. *)
Lemma run_action_steps_dict d a m s :
  run_action_steps E d (JStr a) (JObj m) s =
    let username := default JNull (m !! "username") in
    let password := default JNull (m !! "password") in
    if String.eqb (lower a) "login" then
      if negb (truthy username) || negb (truthy password)
      then (Val missing_credentials, s)
      else login_action E d username password s
    else if String.eqb (lower a) "scrape_dashboard" then
      if negb (truthy username) || negb (truthy password)
      then (Val missing_credentials, s)
      else
        match login_action E d username password s with
        | (Val login_resp, s') =>
            if bool_decide (login_resp !! "status" = Some "ok")
            then scrape_organization_dashboard E d s'
            else (Val login_resp, s')
        | (Exc e, s') => (Exc e, s')
        end
    else (Val (unknown_action a), s).
Proof.
  cbv zeta. unfold run_action_steps. cbn [py_get py_lower].
  repeat (rewrite run_bind; cbn [mret M_ret]).
  destruct (String.eqb (lower a) "login"); [by destruct (_ || _) | ].
  rewrite run_bind; cbn [mret M_ret].
  destruct (String.eqb (lower a) "scrape_dashboard"); [ | done].
  destruct (_ || _); [done | ].
  rewrite run_bind.
  destruct (login_action E d _ _ s) as [[r|e] s']; [ | done].
  by destruct (bool_decide _).
Qed.

Lemma py_or_dict m : py_or (JObj m) (JObj ∅) = JObj m.
Proof.
  unfold py_or. cbn. by destruct (bool_decide_reflect (m = ∅)) as [->|].
Qed.

Lemma login_call_not_dashboard d e :
  login_call d (ev_call e) → ¬ visits DASHBOARD_URL e.
Proof.
  intros H [d' Hd]. rewrite Hd in H. destruct H as [_ H]. discriminate.
Qed.

(** Every run of the login handler gives a dictionary and logs login
    calls only. *)
Lemma login_action_run d u p s :
  ∃ login_resp s' evs,
    login_action E d u p s = (Val login_resp, s')
    ∧ trace s' = trace s ++ evs
    ∧ Forall (λ e, login_call d (ev_call e)) evs.
Proof.
  destruct (login_action_total d u p s) as [r Hr].
  destruct (login_action_emits d u p s) as ((evs & Ht & HP) & _).
  destruct (login_action E d u p s) as [r' s'] eqn:Hl.
  simpl in Hr, Ht. subst r'. by exists r, s', evs.
Qed.

(** A bind that starts with a library call logs that call first. *)
Lemma call_first {B} P c (f : ret_type c → M B) s :
  (∀ a, emits P (f a)) →
  ∃ evs, trace ((call E c ≫= f) s).2 =
           trace s ++ Ev c (oracle E c (length (trace s))) :: evs.
Proof.
  intros Hf. rewrite run_bind. unfold call.
  destruct (oracle E c (length (trace s))) as [a|e].
  - destruct (Hf a (log (Ev c (Val a)) s)) as ((evs & Ht & _) & _).
    exists evs. by rewrite Ht, trace_log, <- app_assoc.
  - by exists [].
Qed.

(** The scraper starts by opening the dashboard. *)
Lemma scrape_run d s :
  ∃ dash s' evs,
    scrape_organization_dashboard E d s = (Val dash, s')
    ∧ trace s' = trace s ++
        Ev (CGet d DASHBOARD_URL) (oracle E (CGet d DASHBOARD_URL) (length (trace s)))
        :: evs.
Proof.
  destruct (scrape_total d s) as [r Hr].
  assert (∃ evs, trace (scrape_steps E d s).2 = trace s ++
            Ev (CGet d DASHBOARD_URL)
               (oracle E (CGet d DASHBOARD_URL) (length (trace s))) :: evs)
    as [evs Ht].
  { apply (call_first (λ _, True)). intros _. emits_auto. }
  unfold scrape_organization_dashboard, try_except in *.
  destruct (scrape_steps E d s) as [[r'|e] s']; simpl in *;
    eexists _, s', evs; by split.
Qed.

(** A login that answers "ok" went through all of [login_steps]. *)
Lemma login_action_ok_inv d u p s r s' :
  login_action E d u p s = (Val r, s') →
  r !! "status" = Some "ok" →
  ∃ user_el next_el pass_el login_el failed1 failed2 polling url1 url2 url,
    trace s' = trace s ++ login_sequence d u p user_el next_el pass_el login_el
                                         failed1 failed2 polling url1 url2 url
    ∧ Forall (λ e, ev_call e = CCurrentUrl d) polling
    ∧ contains "/app/login" (lower url1) = false
    ∧ contains "/app/auth/password" (lower url2) = false
    ∧ r = login_ok url.
Proof.
  intros Hrun Hok.
  destruct (login_steps E d u p s) as [[r0|e] s0] eqn:Hsteps.
  - rewrite (login_action_val _ _ _ _ _ _ Hsteps) in Hrun.
    injection Hrun as <- <-. by apply login_steps_val_inv.
  - rewrite (login_action_exc _ _ _ _ _ _ Hsteps), login_except_run in Hrun.
    injection Hrun as <- _. discriminate.
Qed.

(** Logging in and scraping launch no browser. *)
Lemma handler_launches_none d e :
  login_call d (ev_call e) ∨ scrape_call d (ev_call e) → launch e = false.
Proof. destruct e as [c r]. destruct c; simpl; try done; by intros [[]|[]]. Qed.

(** ** [persistent_driver] plays no part *)

Lemma blind_lift {A} (r : result A) : pd_blind (lift r).
Proof. done. Qed.

Lemma blind_mret {A} (a : A) : pd_blind (mret a).
Proof. done. Qed.

Lemma blind_raise {A} e : pd_blind (@raise A e).
Proof. done. Qed.

Lemma blind_call c : pd_blind (call E c).
Proof. done. Qed.

Lemma blind_sleep ms : pd_blind (sleep ms).
Proof. done. Qed.

Lemma blind_time : pd_blind (time_time E).
Proof. done. Qed.

Lemma blind_new_chrome path args exp : pd_blind (new_chrome E path args exp).
Proof. intros s p. unfold new_chrome. cbn. by destruct (oracle E _ _). Qed.

Lemma blind_bind {A B} (m : M A) (f : A → M B) :
  pd_blind m → (∀ a, pd_blind (f a)) → pd_blind (m ≫= f).
Proof.
  intros Hm Hf s p. rewrite !run_bind, Hm.
  destruct (m s) as [[a|e] s1]; cbn [fst snd]; [apply Hf | done].
Qed.

Lemma blind_try_except {A} (body : M A) handler :
  pd_blind body → (∀ e, pd_blind (handler e)) → pd_blind (try_except body handler).
Proof.
  intros Hm Hf s p. unfold try_except. rewrite Hm.
  destruct (body s) as [[a|e] s1]; cbn [fst snd]; [done | apply Hf].
Qed.

Lemma blind_try_finally {A} (body : M A) cleanup :
  pd_blind body → pd_blind cleanup → pd_blind (try_finally body cleanup).
Proof.
  intros Hm Hc s p. unfold try_finally. rewrite Hm.
  destruct (body s) as [r s1]; cbn [fst snd]. rewrite Hc.
  by destruct (cleanup s1) as [[u|e] s2].
Qed.

Lemma blind_if {A} (b : bool) (m1 m2 : M A) :
  pd_blind m1 → pd_blind m2 → pd_blind (if b then m1 else m2).
Proof. by destruct b. Qed.

Lemma blind_until_loop more method :
  pd_blind method → pd_blind (until_loop more method).
Proof.
  intros Hm. induction more as [|more IH]; intros s p; cbn [until_loop];
    rewrite Hm; destruct (method s) as [[[]|e] s1]; cbn [fst snd];
    try destruct (String.eqb _ _); try done; apply IH.
Qed.

Lemma blind_until method : pd_blind method → pd_blind (until E method).
Proof. intros Hm s p. unfold until. by apply blind_until_loop. Qed.

Lemma blind_py_get obj key dflt : pd_blind (py_get obj key dflt).
Proof. by destruct obj. Qed.

Lemma blind_py_lower obj : pd_blind (py_lower obj).
Proof. by destruct obj. Qed.

Ltac blind_step :=
  first
    [ apply blind_mret | apply blind_raise | apply blind_lift
    | match goal with |- pd_blind (call _ ?c) => exact (blind_call c) end
    | apply blind_sleep | apply blind_time
    | apply blind_new_chrome | apply blind_py_get | apply blind_py_lower
    | apply blind_bind; [ | intros ? ]
    | apply blind_try_except; [ | intros ? ]
    | apply blind_try_finally
    | apply blind_until
    | apply blind_if ].

Ltac blind_auto := cbv zeta; repeat blind_step.

Lemma blind_create_driver : pd_blind (create_driver E).
Proof. unfold create_driver. blind_auto. Qed.

Lemma blind_login_action d u p : pd_blind (login_action E d u p).
Proof. unfold login_action, login_steps, login_except, click. blind_auto. Qed.

Lemma blind_scrape d : pd_blind (scrape_organization_dashboard E d).
Proof. unfold scrape_organization_dashboard, scrape_steps. blind_auto. Qed.

Lemma blind_run_action_steps d action payload :
  pd_blind (run_action_steps E d action payload).
Proof.
  unfold run_action_steps.
  repeat first [apply blind_login_action | apply blind_scrape | blind_step].
Qed.

Lemma blind_run_action_sync action payload :
  pd_blind (run_action_sync E action payload).
Proof.
  intros s p. unfold run_action_sync. rewrite blind_create_driver.
  destruct (create_driver E s) as [[d|e] s1]; cbn [fst snd]; [ | done].
  apply blind_try_finally; [ | unfold quit_quietly; blind_auto].
  apply blind_try_except; [apply blind_run_action_steps | intros e; apply blind_mret].
Qed.

Lemma blind_submit_result {A} (task : M A) timeout :
  pd_blind task → pd_blind (submit_result E task timeout).
Proof.
  intros Ht s p. unfold submit_result. rewrite Ht.
  destruct (task s) as [r s1]; cbn [fst snd]. unfold call. cbn.
  by destruct (oracle E _ _).
Qed.

Lemma blind_run request : pd_blind (run E request).
Proof.
  unfold run.
  repeat first [apply blind_submit_result, blind_run_action_sync | blind_step].
Qed.

Lemma blind_handle rq : pd_blind (handle E rq).
Proof.
  unfold handle. destruct (find_route _ _) as [[]|];
    repeat first [apply blind_run | blind_step].
Qed.

Lemma blind_serve rqs : pd_blind (serve E rqs).
Proof.
  induction rqs as [|rq rqs IH]; cbn [serve];
    repeat first [apply blind_handle | apply IH | blind_step].
Qed.

(** ** What the endpoints add to the log *)

Lemma run_action_sync_emits action payload :
  emits (λ _, True) (run_action_sync E action payload).
Proof.
  intros s. unfold run_action_sync.
  destruct (emits_mono _ (λ _, True) _ (λ _ _, I) create_driver_emits s)
    as ((evs & Ht & HP) & Hp).
  destruct (create_driver E s) as [[d|e] s1] eqn:Hc; cbn [fst snd] in *;
    [ | split; [by exists evs | done]].
  replace s1 with (create_driver E s).2 by (by rewrite Hc).
  apply (emits_seq (λ _, True) (create_driver E)).
  - apply (emits_mono _ (λ _, True) _ (λ _ _, I) create_driver_emits).
  - apply emits_try_finally;
      [ | apply (emits_mono _ _ _ (λ _ _, I) (quit_quietly_emits d))].
    apply emits_try_except; [ | intros e; apply emits_mret].
    apply (emits_mono _ _ _ (λ _ _, I) (run_action_steps_emits d action _)).
Qed.

Lemma submit_result_emits {A} (task : M A) timeout :
  emits (λ _, True) task → emits (λ _, True) (submit_result E task timeout).
Proof.
  intros Ht s. unfold submit_result.
  destruct (task s) as [r s1] eqn:Hr.
  replace s1 with (task s).2 by (by rewrite Hr).
  destruct (emits_seq (λ _, True) task (call E (CFutureResult timeout)) s Ht)
    as (He & Hp); [by apply emits_call | ].
  by destruct (call E (CFutureResult timeout) (task s).2) as [[u|e] s2].
Qed.

Lemma run_emits request : emits (λ _, True) (run E request).
Proof.
  unfold run.
  repeat first
    [ apply py_get_emits
    | apply submit_result_emits, run_action_sync_emits
    | emits_step ].
Qed.

Lemma handle_emits rq : emits (λ _, True) (handle E rq).
Proof.
  unfold handle. destruct (find_route _ _) as [[]|];
    repeat first [apply run_emits | emits_step].
Qed.

Lemma serve_emits rqs : emits (λ _, True) (serve E rqs).
Proof.
  induction rqs as [|rq rqs IH]; cbn [serve];
    repeat first [apply handle_emits | apply IH | emits_step].
Qed.

(** ** Drivers are never reused *)

Lemma drivers_known_ext s s' evs :
  drivers_known s →
  trace s' = trace s ++ evs →
  Forall (λ e, ∀ d, call_driver (ev_call e) = Some d → (d < launched s')%nat) evs →
  drivers_known s'.
Proof.
  unfold drivers_known. intros Hs Ht Hevs.
  assert (launched s ≤ launched s')%nat as Hle.
  { unfold launched. rewrite Ht, launches_app. lia. }
  rewrite Ht. apply Forall_app_2; [ | done].
  eapply Forall_impl; [apply Hs | ]. intros e He d Hd. specialize (He d Hd). lia.
Qed.

Lemma keeps_known_log {A} (m : M A) :
  (∀ s, ∃ e, call_driver (ev_call e) = None ∧ (m s).2 = log e s) →
  keeps_known m.
Proof.
  intros H s Hs. destruct (H s) as (e & He & Hlog).
  apply (drivers_known_ext s _ [e] Hs); [by rewrite Hlog | ].
  constructor; [ | done]. intros d Hd. congruence.
Qed.

Lemma keeps_known_lift {A} (r : result A) : keeps_known (lift r).
Proof. by intros s Hs. Qed.

Lemma keeps_known_bind {A B} (m : M A) (f : A → M B) :
  keeps_known m → (∀ a, keeps_known (f a)) → keeps_known (m ≫= f).
Proof.
  intros Hm Hf s Hs. rewrite run_bind. specialize (Hm s Hs).
  destruct (m s) as [[a|e] s1]; [by apply Hf | done].
Qed.

Lemma keeps_known_try_except {A} (body : M A) handler :
  keeps_known body → (∀ e, keeps_known (handler e)) →
  keeps_known (try_except body handler).
Proof.
  intros Hm Hf s Hs. unfold try_except. specialize (Hm s Hs).
  destruct (body s) as [[a|e] s1]; [done | by apply Hf].
Qed.

Lemma keeps_known_py_get obj key dflt : keeps_known (py_get obj key dflt).
Proof. destruct obj; apply keeps_known_lift. Qed.

(** Whatever [create_driver] does, the only driver it names is the one it
    has just launched. *)
Lemma create_driver_known : keeps_known (create_driver E).
Proof.
  intros s Hs. unfold create_driver. rewrite run_bind. unfold call at 1.
  destruct (oracle E CInstall _) as [path|e].
  2: { apply (drivers_known_ext s _ [Ev CInstall (Exc e)] Hs); [done | ].
       by repeat constructor. }
  rewrite run_bind. unfold new_chrome.
  set (s1 := log (Ev CInstall (Val path)) s).
  destruct (oracle E (CChrome _ _ _) _) as [[]|e].
  2: { apply (drivers_known_ext s _
                [Ev CInstall (Val path);
                 Ev (CChrome path (chrome_arguments E) chrome_experimental) (Exc e)]
                Hs);
         [cbn [snd]; unfold s1; by rewrite !trace_log, <- app_assoc | ].
       by repeat constructor. }
  set (s2 := log _ s1). rewrite run_bind.
  assert (launched s1 < launched s2)%nat as Hlt.
  { unfold s2. rewrite launched_log. cbn. lia. }
  assert (launched s = launched s1) as Heq.
  { unfold s1. rewrite launched_log. cbn. lia. }
  assert (trace s2 = trace s ++ [Ev CInstall (Val path);
            Ev (CChrome path (chrome_arguments E) chrome_experimental) (Val ())])
    as Ht2 by (unfold s2, s1; by rewrite !trace_log, <- app_assoc).
  assert (∀ r, drivers_known
                 (log (Ev (CSetPageLoadTimeout (launched s1) 60) r) s2)) as Hfin.
  { intros r. eapply (drivers_known_ext s _ _ Hs).
    - by rewrite trace_log, Ht2, <- app_assoc.
    - repeat constructor; try done.
      intros d [= <-]. rewrite launched_log.
      change (launch _) with false. cbv iota. by rewrite Nat.add_0_r. }
  unfold call. change (browser_timeout (settings E) + 30) with 60.
  destruct (oracle E (CSetPageLoadTimeout _ _) _) as [[]|e]; apply Hfin.
Qed.

Lemma handler_call_driver d e d' :
  login_call d (ev_call e) ∨ scrape_call d (ev_call e) →
  call_driver (ev_call e) = Some d' → d' = d.
Proof.
  destruct e as [c r]. destruct c; simpl; intros [H|H] [= <-];
    try done; by destruct H.
Qed.

Lemma run_action_sync_known action payload :
  keeps_known (run_action_sync E action payload).
Proof.
  intros s Hs. pose proof (create_driver_known s Hs) as Hk.
  unfold run_action_sync.
  destruct (create_driver E s) as [[d|e] s1] eqn:Hc; [ | done]. simpl in Hk.
  rewrite try_finally_quit. cbn [snd].
  set (body := try_except _ _).
  assert (emits (λ e, login_call d (ev_call e) ∨ scrape_call d (ev_call e)) body)
    as Hbody.
  { apply emits_try_except; [apply run_action_steps_emits | intros e; apply emits_mret]. }
  destruct (Hbody s1) as ((mid & Ht & HP) & _).
  apply create_driver_val_inv in Hc as (Hd & Hl & _).
  assert (launched (body s1).2 = launched s1) as Hsame.
  { unfold launched. rewrite Ht, launches_app.
    rewrite (launches_none _ mid (handler_launches_none d) HP). lia. }
  apply (drivers_known_ext s1 _ (mid ++ [quit_event E d (body s1).2]) Hk).
  - by rewrite trace_log, Ht, <- app_assoc.
  - rewrite launched_log, Hsame. apply Forall_app_2.
    + eapply Forall_impl; [apply HP | ]. intros e He d' Hd'.
      rewrite (handler_call_driver d e d' He Hd'). cbn. lia.
    + repeat constructor. intros d' [= <-]. cbn. lia.
Qed.

Lemma submit_result_known {A} (task : M A) timeout :
  keeps_known task → keeps_known (submit_result E task timeout).
Proof.
  intros Ht s Hs. unfold submit_result. specialize (Ht s Hs).
  destruct (task s) as [r s1]. simpl in Ht.
  assert (drivers_known (call E (CFutureResult timeout) s1).2) as Hc.
  { apply (keeps_known_log (call E (CFutureResult timeout))); [ | done].
    intros s2. exists (Ev (CFutureResult timeout)
                          (oracle E (CFutureResult timeout) (length (trace s2)))).
    by split. }
  by destruct (call E (CFutureResult timeout) s1) as [[u|e] s2].
Qed.

Lemma run_known request : keeps_known (run E request).
Proof.
  unfold run.
  repeat first
    [ apply keeps_known_lift | apply keeps_known_py_get
    | apply submit_result_known, run_action_sync_known
    | apply keeps_known_bind; [ | intros ? ]
    | apply keeps_known_try_except; [ | intros ? ]
    | match goal with |- keeps_known (if ?b then _ else _) => destruct b end
    | apply (keeps_known_lift (Val _)) ].
Qed.

Lemma handle_known rq : keeps_known (handle E rq).
Proof.
  unfold handle. destruct (find_route _ _) as [[]|];
    repeat first
      [ apply run_known | apply (keeps_known_lift (Val _))
      | apply keeps_known_bind; [ | intros ? ] ].
Qed.

Lemma serve_known rqs : keeps_known (serve E rqs).
Proof.
  induction rqs as [|rq rqs IH]; cbn [serve];
    repeat first
      [ apply handle_known | apply IH | apply (keeps_known_lift (Val _))
      | apply keeps_known_bind; [ | intros ? ] ].
Qed.

(** ** Every answer of the runner *)

Lemma runner_answer_frame pre evs post r :
  Forall no_screenshot pre → Forall no_screenshot post →
  runner_answer evs r → runner_answer (pre ++ evs ++ post) r.
Proof.
  intros Hpre Hpost Hr.
  assert (Forall no_screenshot evs → Forall no_screenshot (pre ++ evs ++ post))
    as Hall by (intros; by repeat apply Forall_app_2).
  destruct Hr as [url Hno | e d ts r Hin | text Hno | e Hno | Hno | a Hno | e Hno];
    [ apply RLoginOk | apply (RLoginFailed _ e d ts r) | apply RScrapeOk
    | apply RScrapeFailed | apply RMissingCredentials | apply RUnknownAction
    | apply RUnexpected ];
    try (by apply Hall).
  apply in_or_app. right. apply in_or_app. by left.
Qed.

Lemma login_sequence_no_screenshot d u p e1 e2 e3 e4 f1 f2 polling u1 u2 url :
  Forall (λ e, ev_call e = CCurrentUrl d) polling →
  Forall no_screenshot
         (login_sequence d u p e1 e2 e3 e4 f1 f2 polling u1 u2 url).
Proof.
  intros Hpoll. unfold login_sequence.
  repeat apply Forall_app_2; try (destruct f1); try (destruct f2);
    try (repeat constructor; by intros ??).
  all: eapply Forall_impl; [apply Hpoll | ]; intros ev Hev d' path; by rewrite Hev.
Qed.

Lemma login_action_answer d u p s :
  ∃ r s' evs,
    login_action E d u p s = (Val r, s')
    ∧ trace s' = trace s ++ evs
    ∧ ((∃ url, r = login_ok url ∧ Forall no_screenshot evs)
       ∨ (∃ e ts res, r = login_failed e (screenshot_name ts)
                      ∧ In (Ev (CSaveScreenshot d (screenshot_name ts)) res) evs)).
Proof.
  destruct (login_steps E d u p s) as [[r|e] s1] eqn:Hs.
  - rewrite (login_action_val _ _ _ _ _ _ Hs).
    apply login_steps_val_inv in Hs
      as (e1 & e2 & e3 & e4 & f1 & f2 & polling & u1 & u2 & url
          & Ht & Hpoll & _ & _ & ->).
    eexists _, _, _. split; [done | ]. split; [exact Ht | ]. left.
    exists url. split; [done | by apply login_sequence_no_screenshot].
  - rewrite (login_action_exc _ _ _ _ _ _ Hs), login_except_run.
    destruct (login_steps_emits d u p s) as ((evs & Ht & _) & _).
    rewrite Hs in Ht. simpl in Ht.
    eexists _, _, _. split; [done | ]. split.
    + rewrite !trace_log, Ht, <- !app_assoc. reflexivity.
    + right. eexists _, _, _. split; [done | ].
      rewrite Ht. apply in_or_app. right. cbn. right. by left.
Qed.

Lemma scrape_steps_val_inv d s r s' :
  scrape_steps E d s = (Val r, s') → ∃ text, r = scrape_ok text.
Proof.
  unfold scrape_steps. intros H.
  apply bind_val_inv in H as (? & ? & _ & H).
  apply bind_val_inv in H as (? & ? & _ & H).
  apply bind_val_inv in H as (? & ? & _ & H).
  apply bind_val_inv in H as (? & ? & _ & H).
  apply bind_val_inv in H as (text & ? & _ & H).
  injection H as <- _. by exists text.
Qed.

Lemma scrape_call_no_screenshot d e : scrape_call d (ev_call e) → no_screenshot e.
Proof. intros H d' path Hc. by rewrite Hc in H. Qed.

Lemma scrape_answer d s :
  ∃ r s' evs,
    scrape_organization_dashboard E d s = (Val r, s')
    ∧ trace s' = trace s ++ evs
    ∧ Forall no_screenshot evs
    ∧ ((∃ text, r = scrape_ok text) ∨ (∃ e, r = scrape_failed e)).
Proof.
  destruct (scrape_emits d s) as ((evs & Ht & HP) & _).
  assert (Forall no_screenshot evs) as Hno.
  { eapply Forall_impl; [apply HP | ]. intros e. apply scrape_call_no_screenshot. }
  unfold scrape_organization_dashboard, try_except in *.
  destruct (scrape_steps E d s) as [[r|e] s1] eqn:Hs; simpl in Ht.
  - apply scrape_steps_val_inv in Hs as [text ->].
    eexists _, _, evs. do 3 (split; [done | ]). left. by exists text.
  - eexists _, _, evs. do 3 (split; [done | ]). right. by exists e.
Qed.

(** The try block of the runner: it raises only before any call is made
    (when payload or action is of the wrong type), and otherwise gives
    one of the runner's dictionaries. *)
Lemma run_action_steps_answer d action payload s :
  ∃ res s' evs,
    run_action_steps E d action payload s = (res, s')
    ∧ trace s' = trace s ++ evs
    ∧ match res with
      | Val r => runner_answer evs r
      | Exc _ => evs = []
      end.
Proof.
  destruct payload as [ | | | | | |m];
    try (eexists _, s, []; split; [reflexivity | split; [by rewrite app_nil_r | done]]).
  destruct action as [ | | | |a| | ];
    try (eexists _, s, []; split; [reflexivity | split; [by rewrite app_nil_r | done]]).
  rewrite run_action_steps_dict. cbv zeta.
  set (u := default JNull (m !! "username")).
  set (p := default JNull (m !! "password")).
  destruct (login_action_answer d u p s) as (lr & s1 & levs & Hl & Hlt & Hcase).
  assert (runner_answer levs lr) as Hlr.
  { destruct Hcase as [(url & -> & Hno) | (e & ts & res & -> & Hin)];
      [by apply RLoginOk | by apply (RLoginFailed _ e d ts res)]. }
  destruct (String.eqb (lower a) "login").
  { destruct (_ || _).
    - eexists _, s, []. split; [done | ]. split; [by rewrite app_nil_r | ].
      by apply RMissingCredentials.
    - by exists (Val lr), s1, levs. }
  destruct (String.eqb (lower a) "scrape_dashboard").
  2: { eexists _, s, []. split; [done | ]. split; [by rewrite app_nil_r | ].
       by apply RUnknownAction. }
  destruct (_ || _).
  { eexists _, s, []. split; [done | ]. split; [by rewrite app_nil_r | ].
    by apply RMissingCredentials. }
  rewrite Hl.
  destruct (bool_decide_reflect (lr !! "status" = Some "ok")) as [Hok|Hne].
  2: by exists (Val lr), s1, levs.
  destruct Hcase as [(url & -> & Hno) | (e & ts & res & -> & _)]; [ | done].
  destruct (scrape_answer d s1) as (r & s2 & sevs & Hs & Hst & Hsno & Hr).
  exists (Val r), s2, (levs ++ sevs). split; [done | ].
  split; [by rewrite Hst, Hlt, app_assoc | ].
  assert (Forall no_screenshot (levs ++ sevs)) by (by apply Forall_app_2).
  destruct Hr as [[text ->] | [e ->]];
    [by apply RScrapeOk | by apply RScrapeFailed].
Qed.

Lemma run_action_sync_answer action payload s :
  ∃ r s' evs,
    run_action_sync E action payload s = (Val r, s')
    ∧ trace s' = trace s ++ evs
    ∧ runner_answer evs r.
Proof.
  destruct (create_driver_emits s) as ((cevs & Hct & HcP) & _).
  assert (Forall no_screenshot cevs) as Hcno.
  { eapply Forall_impl; [apply HcP | ].
    intros [c r] Hc d' path Heq. simpl in *. by subst c. }
  destruct (create_driver E s) as [[d|e] s1] eqn:Hc; simpl in Hct.
  2: { exists (unexpected_error e), s1, cevs.
       rewrite (run_action_sync_not_created _ _ _ _ _ Hc).
       split; [done | ]. split; [done | by apply RUnexpected]. }
  rewrite (run_action_sync_created _ _ _ _ _ Hc), try_finally_quit.
  unfold try_except.
  destruct (run_action_steps_answer d action (py_or payload (JObj ∅)) s1)
    as (res & s2 & evs & Hrun & Ht & Hres).
  rewrite Hrun.
  assert (Forall no_screenshot [quit_event E d s2]) as Hq
    by (repeat constructor; by intros ??).
  destruct res as [r|e].
  - exists r, (log (quit_event E d s2) s2), (cevs ++ evs ++ [quit_event E d s2]).
    split; [done | ]. split; [by rewrite trace_log, Ht, Hct, <- !app_assoc | ].
    by apply runner_answer_frame.
  - subst evs. cbn [mret M_ret fst snd].
    exists (unexpected_error e), (log (quit_event E d s2) s2),
      (cevs ++ [] ++ [quit_event E d s2]).
    split; [done | ]. split; [by rewrite trace_log, Ht, Hct, <- !app_assoc | ].
    apply runner_answer_frame; [done | done | by apply RUnexpected].
Qed.

(** ** The endpoint *)

(** [POST /run] on a body that is a JSON object. *)
Lemma run_dict m s :
  run E (Val (JObj m)) s =
    let action := default JNull (m !! "action") in
    let payload := default (JObj ∅) (m !! "payload") in
    if truthy action then
      let rs := run_action_sync E action payload s in
      let wait := CFutureResult 300 in
      match oracle E wait (length (trace rs.2)) with
      | Val u => (rs.1, log (Ev wait (Val u)) rs.2)
      | Exc e => (Val (server_error e), log (Ev wait (Exc e)) rs.2)
      end
    else (Val missing_action, s).
Proof.
  cbv zeta. unfold run, try_except, py_get, lift.
  repeat (rewrite run_bind; cbn [mret M_ret]).
  destruct (truthy _); cbn [negb]; [ | done].
  rewrite run_bind. unfold submit_result, call.
  destruct (run_action_sync_total (default JNull (m !! "action"))
              (default (JObj ∅) (m !! "payload")) s) as [r Hr].
  destruct (run_action_sync E _ _ s) as [res s1]. simpl in Hr. subst res.
  cbn [fst snd]. by destruct (oracle E _ _) as [[]|e].
Qed.

Lemma run_not_dict body s :
  match body with JObj _ => False | _ => True end →
  run E (Val body) s = (Val (server_error (AttributeError body "get")), s).
Proof. by destruct body. Qed.

Lemma run_answer request s :
  ∃ r s' evs,
    run E request s = (Val r, s')
    ∧ trace s' = trace s ++ evs
    ∧ (r = missing_action ∨ (∃ e, r = server_error e) ∨ runner_answer evs r).
Proof.
  destruct request as [body|e].
  2: { exists (server_error e), s, []. split; [done | ].
       split; [by rewrite app_nil_r | right; left; by exists e]. }
  destruct body as [ | | | | | |m];
    try (eexists _, s, []; split; [by apply run_not_dict | ];
         split; [by rewrite app_nil_r | right; left; by eexists]).
  rewrite run_dict. cbv zeta.
  destruct (truthy _).
  2: { exists missing_action, s, []. split; [done | ].
       split; [by rewrite app_nil_r | by left]. }
  destruct (run_action_sync_answer (default JNull (m !! "action"))
              (default (JObj ∅) (m !! "payload")) s)
    as (r & s1 & evs & Hrun & Ht & Hr).
  rewrite Hrun. cbn [fst snd].
  destruct (oracle E _ _) as [u|e].
  - eexists r, _, (evs ++ [_]). split; [done | ].
    split; [by rewrite trace_log, Ht, <- app_assoc | ]. right. right.
    apply (runner_answer_frame [] evs [_]); [done | | done].
    repeat constructor. by intros ??.
  - eexists _, _, (evs ++ [_]). split; [done | ].
    split; [by rewrite trace_log, Ht, <- app_assoc | ]. right. left. by exists e.
Qed.


(** ** Unknown actions *)




(** * The claims *)


(** The login handler starts by opening the login page, whatever happens
    next. *)
Lemma login_action_opens_login_page d u p s :
  ∃ r s' rest,
    login_action E d u p s = (Val r, s')
    ∧ trace s' = trace s ++
        Ev (CGet d LOGIN_URL) (oracle E (CGet d LOGIN_URL) (length (trace s)))
        :: rest
    ∧ Forall (λ e, login_call d (ev_call e)) rest.
Proof.
  destruct (login_action_run d u p s) as (r & s' & evs & Hrun & Ht & HP).
  assert (∃ evs1, trace (login_steps E d u p s).2 = trace s ++
            Ev (CGet d LOGIN_URL) (oracle E (CGet d LOGIN_URL) (length (trace s)))
            :: evs1) as [evs1 Ht1].
  { apply (call_first (λ _, True)). intros _. emits_auto. }
  assert (∃ rest, evs = Ev (CGet d LOGIN_URL)
                          (oracle E (CGet d LOGIN_URL) (length (trace s))) :: rest)
    as [rest ->].
  { destruct (login_steps E d u p s) as [[r0|e] s0] eqn:Hs; simpl in Ht1.
    - rewrite (login_action_val _ _ _ _ _ _ Hs) in Hrun.
      injection Hrun as _ <-. rewrite Ht1 in Ht.
      apply app_inv_head in Ht. by exists evs1.
    - rewrite (login_action_exc _ _ _ _ _ _ Hs), login_except_run in Hrun.
      injection Hrun as _ <-. rewrite !trace_log, Ht1, <- !app_assoc in Ht.
      apply app_inv_head in Ht. cbn in Ht. by eexists. }
  exists r, s', rest. do 2 (split; [done | ]).
  by apply Forall_cons in HP as [_ HP].
Qed.

(** C1, as the code has it.  For "scrape_dashboard" with user name and
    password present the runner first creates the browser.  When that
    raises, nothing of a login is attempted and the answer is the
    "Unexpected error" dictionary.  Otherwise the runner first runs the
    login handler, whose first call opens the login page; when its answer
    has status "ok" the whole login sequence is in the log before the
    dashboard is opened and the scraper's answer is returned; with any
    other status the answer is the login handler's error dictionary,
    returned as it is, and nothing in the log of the run opens the
    dashboard. *)
Theorem scrape_dashboard_logs_in_first a m s :
  lower a = "scrape_dashboard" →
  truthy (default JNull (m !! "username")) = true →
  truthy (default JNull (m !! "password")) = true →
  match create_driver E s with
  | (Exc e, s1) =>
      run_action_sync E (JStr a) (JObj m) s = (Val (unexpected_error e), s1)
      ∧ ∃ evs, trace s1 = trace s ++ evs
               ∧ Forall (λ ev, ∀ d, ¬ login_call d (ev_call ev)) evs
  | (Val d, s1) =>
      ∃ login_resp s2 rest,
        login_action E d (default JNull (m !! "username"))
                         (default JNull (m !! "password")) s1
        = (Val login_resp, s2)
        ∧ trace s2 = trace s1 ++
            Ev (CGet d LOGIN_URL)
               (oracle E (CGet d LOGIN_URL) (length (trace s1)))
            :: rest
        ∧ Forall (λ e, login_call d (ev_call e)) rest
        ∧ if bool_decide (login_resp !! "status" = Some "ok") then
            ∃ dash s3 scrape_evs,
              (∃ user_el next_el pass_el login_el failed1 failed2 polling
                 url1 url2 url,
                 Ev (CGet d LOGIN_URL)
                    (oracle E (CGet d LOGIN_URL) (length (trace s1))) :: rest
                 = login_sequence d (default JNull (m !! "username"))
                     (default JNull (m !! "password"))
                     user_el next_el pass_el login_el failed1 failed2
                     polling url1 url2 url)
              ∧ scrape_organization_dashboard E d s2 = (Val dash, s3)
              ∧ trace s3 = trace s2 ++
                  Ev (CGet d DASHBOARD_URL)
                     (oracle E (CGet d DASHBOARD_URL) (length (trace s2)))
                  :: scrape_evs
              ∧ run_action_sync E (JStr a) (JObj m) s
                = (Val dash, log (quit_event E d s3) s3)
          else
            (∃ e ts, login_resp = login_failed e (screenshot_name ts))
            ∧ run_action_sync E (JStr a) (JObj m) s
              = (Val login_resp, log (quit_event E d s2) s2)
            ∧ ∃ evs, trace (log (quit_event E d s2) s2) = trace s ++ evs
                     ∧ Forall (λ e, ¬ visits DASHBOARD_URL e) evs
  end.
Proof.
  intros Ha Hu Hp.
  destruct (create_driver E s) as [[d|e] s1] eqn:Hcreate.
  2: { split; [by apply run_action_sync_not_created | ].
       destruct (create_driver_emits s) as ((evs & Ht & HP) & _).
       rewrite Hcreate in Ht. exists evs. split; [done | ].
       eapply Forall_impl; [apply HP | ].
       intros [c r] Hc d Hl. by destruct c. }
  destruct (login_action_opens_login_page d (default JNull (m !! "username"))
              (default JNull (m !! "password")) s1)
    as (login_resp & s2 & rest & Hlogin & Ht & HP).
  exists login_resp, s2, rest. do 3 (split; [done | ]).
  assert (try_except
            (run_action_steps E d (JStr a) (py_or (JObj m) (JObj ∅)))
            (λ e, mret (unexpected_error e)) s1
          = if bool_decide (login_resp !! "status" = Some "ok")
            then scrape_organization_dashboard E d s2
            else (Val login_resp, s2)) as Hbody.
  { unfold try_except. rewrite py_or_dict, run_action_steps_dict. cbv zeta.
    rewrite Ha, Hu, Hp, Hlogin. cbn [String.eqb negb orb].
    replace (String.eqb "scrape_dashboard" "login") with false by done.
    replace (String.eqb "scrape_dashboard" "scrape_dashboard") with true by done.
    destruct (bool_decide _); [ | done].
    destruct (scrape_run d s2) as (dash & s3 & evs & -> & _). done. }
  rewrite (run_action_sync_created _ _ _ _ _ Hcreate), try_finally_quit, Hbody.
  destruct (bool_decide_reflect (login_resp !! "status" = Some "ok")) as [Hok|Hno].
  - destruct (scrape_run d s2) as (dash & s3 & evs & Hscrape & Hts).
    exists dash, s3, evs. rewrite Hscrape. split; [ | done].
    destruct (login_action_ok_inv _ _ _ _ _ _ Hlogin Hok)
      as (e1 & e2 & e3 & e4 & f1 & f2 & polling & u1 & u2 & url & Hseq & _).
    exists e1, e2, e3, e4, f1, f2, polling, u1, u2, url.
    rewrite Ht in Hseq. by apply app_inv_head in Hseq.
  - split.
    { destruct (login_action_answer d (default JNull (m !! "username"))
                  (default JNull (m !! "password")) s1)
        as (r & s' & evs & Hrun & _ & Hr).
      rewrite Hlogin in Hrun. injection Hrun as <- _.
      destruct Hr as [(url & -> & _) | (e & ts & res & -> & _)];
        [by destruct Hno | by exists e, ts]. }
    split; [done | ].
    apply create_driver_val_inv in Hcreate as (_ & _ & _ & path & Hc).
    eexists. split.
    + cbn [fst snd]. rewrite trace_log, Ht, Hc, <- !app_assoc. reflexivity.
    + repeat apply Forall_app_2.
      * repeat constructor; intros [d' Hd]; discriminate.
      * constructor; [intros [d' Hd]; discriminate | ].
        eapply Forall_impl; [apply HP | ]. intros e. apply login_call_not_dashboard.
      * repeat constructor; intros [d' Hd]; discriminate.
Qed.


(** C7, as the code has it.  Whenever the runner has got a driver from
    [create_driver], the last thing it does, whatever the action and the
    payload and whatever the calls in between did, is to call [quit] on
    that driver (what the call answers, or raises, changes nothing of the
    result); between creation and quit it only logs in and scrapes on
    that driver, and the run has launched this one browser and no
    other. *)
Theorem driver_always_quit action payload s d s1 :
  create_driver E s = (Val d, s1) →
  ∃ r s2 mid,
    run_action_sync E action payload s = (Val r, log (quit_event E d s2) s2)
    ∧ trace s2 = trace s1 ++ mid
    ∧ Forall (λ e, login_call d (ev_call e) ∨ scrape_call d (ev_call e)) mid
    ∧ Forall (λ e, ∀ d', ev_call e ≠ CQuit d') mid
    ∧ launched (log (quit_event E d s2) s2) = S (launched s)
    ∧ d = launched s.
Proof.
  intros Hcreate.
  rewrite (run_action_sync_created _ _ _ _ _ Hcreate), try_finally_quit.
  set (body := try_except _ _).
  assert (emits (λ e, login_call d (ev_call e) ∨ scrape_call d (ev_call e)) body)
    as Hbody.
  { apply emits_try_except; [apply run_action_steps_emits | intros e; apply emits_mret]. }
  assert (total body) as Htot.
  { apply total_try_except. intros e. apply total_mret. }
  destruct (Hbody s1) as ((mid & Ht & HP) & _). destruct (Htot s1) as [r Hr].
  exists r, (body s1).2, mid. rewrite Hr.
  apply create_driver_val_inv in Hcreate as (Hd & Hl & _).
  split; [done | ]. split; [done | ]. split; [done | ].
  split.
  - eapply Forall_impl; [apply HP | ].
    intros [c res] [H | H] d' Hq; simpl in *; by subst c.
  - split; [ | done]. rewrite launched_log. unfold launched at 1.
    rewrite Ht, launches_app.
    rewrite (launches_none _ mid (handler_launches_none d) HP).
    fold (launched s1). rewrite Hl. cbn. lia.
Qed.

(** C9, as the code has it.  No driver object is shared between requests:
    over any sequence of requests the endpoints neither write
    [persistent_driver] (it keeps its value, so it is still [None] when
    the server started with [None]) nor read it (with any other value in
    it the answers and the log are the same); and after any such history
    the driver that the runner gets from [create_driver] is a new one,
    named by no call made before. *)
Theorem no_shared_driver rqs :
  (∀ s, persistent_driver (serve E rqs s).2 = persistent_driver s)
  ∧ (∀ s p, serve E rqs (with_pd p s)
            = ((serve E rqs s).1, with_pd p (serve E rqs s).2))
  ∧ persistent_driver (serve E rqs init_state).2 = None
  ∧ (∀ action payload,
       match create_driver E (serve E rqs init_state).2 with
       | (Val d, s1) =>
           Forall (λ e, call_driver (ev_call e) ≠ Some d)
                  (trace (serve E rqs init_state).2)
           ∧ run_action_sync E action payload (serve E rqs init_state).2
             = try_finally
                 (try_except
                    (run_action_steps E d action (py_or payload (JObj ∅)))
                    (λ e, mret (unexpected_error e)))
                 (quit_quietly E d) s1
       | (Exc _, _) => True
       end).
Proof.
  split; [intros s; apply serve_emits | ].
  split; [apply blind_serve | ].
  split; [apply (serve_emits rqs init_state) | ].
  intros action payload.
  pose proof (serve_known rqs init_state (Forall_nil_2 _)) as Hk.
  destruct (create_driver E _) as [[d|e] s1] eqn:Hc; [ | done].
  split; [ | by apply run_action_sync_created].
  apply create_driver_val_inv in Hc as (-> & _).
  eapply Forall_impl; [apply Hk | ].
  intros e He Hd. specialize (He _ Hd). lia.
Qed.


(** C4, as the code has it.  Every answer of [POST /run] has a "status"
    field; it has a "message" field too, unless it is the result of a
    successful scrape, which carries "dashboard_url" and "text" in its
    place.  [GET /ping] answers with a "message" and no "status". *)
Theorem response_shape request s :
  (∃ r, (run E request s).1 = Val r
        ∧ is_Some (r !! "status")
        ∧ (is_Some (r !! "message")
           ∨ ∃ text, r = scrape_ok text ∧ r !! "message" = None))
  ∧ ping !! "message" = Some "ping - server up"
  ∧ ping !! "status" = None.
Proof.
  split; [ | done].
  destruct (run_answer request s) as (r & s' & evs & Hrun & _ & Hr).
  exists r. rewrite Hrun. split; [done | ].
  destruct Hr as [-> | [[e ->] | Hr]]; [by split; [ | left] .. | ].
  destruct Hr; (split; [done | ]); try (by left).
  right. by exists text.
Qed.



End Properties.

(** * The claims on sample runs *)

Example lower_folds_case : lower "Scrape_Dashboard" = "scrape_dashboard".
Proof. reflexivity. Qed.

(** A login in a browser that stays on the login page: three polls, then
    the timeout, the screenshot and the error dictionary. *)
Example login_times_out :
  (login_action stuck 0%nat (JStr "taxpayer") (JStr "secret") init_state).1
  = Val {[ "status" := "error";
           "message" := "Login failed: Message: " +:+ newline;
           "screenshot" := "screenshot_1700000000.png" ]}
  ∧ map ev_call
        (drop 16 (trace (login_action stuck 0%nat (JStr "taxpayer")
                                      (JStr "secret") init_state).2))
    = [ CCurrentUrl 0%nat; CCurrentUrl 0%nat; CCurrentUrl 0%nat; CTime;
        CSaveScreenshot 0%nat "screenshot_1700000000.png" ].
Proof. split; vm_compute; reflexivity. Qed.

(** [get_driver], which no endpoint calls, is what would keep a browser:
    it fills [persistent_driver] and hands the same driver out again. *)
Example get_driver_keeps_browser :
  persistent_driver (get_driver fine init_state).2 = Some 0%nat
  ∧ (get_driver fine (get_driver fine init_state).2).1 = Val 0%nat
  ∧ trace (get_driver fine (get_driver fine init_state).2).2
    = trace (get_driver fine init_state).2.
Proof. by vm_compute. Qed.

(** A driver that [create_driver] could not hand over is not quit: when
    [set_page_load_timeout] raises after the browser was launched, the
    runner answers "Unexpected error" and its log ends there. *)
Example create_driver_fails_after_launch :
  (run_action_sync (fails_at 2 boom) (JStr "login") (JObj creds) init_state).1
  = Val (unexpected_error boom)
  ∧ map ev_call
        (trace (run_action_sync (fails_at 2 boom) (JStr "login") (JObj creds)
                                init_state).2)
    = [ CInstall;
        CChrome "/opt/chromedriver" (chrome_arguments fine) chrome_experimental;
        CSetPageLoadTimeout 0%nat 60 ].
Proof. split; vm_compute; reflexivity. Qed.


Lemma scrape_dashboard_logs_in_first_witness :
  match create_driver fine init_state with
  | (Exc e, s1) =>
      run_action_sync fine (JStr "scrape_dashboard") (JObj creds) init_state
      = (Val (unexpected_error e), s1)
      ∧ ∃ evs, trace s1 = trace init_state ++ evs
               ∧ Forall (λ ev, ∀ d, ¬ login_call d (ev_call ev)) evs
  | (Val d, s1) =>
      ∃ login_resp s2 rest,
        login_action fine d (default JNull (creds !! "username"))
                     (default JNull (creds !! "password")) s1
        = (Val login_resp, s2)
        ∧ trace s2 = trace s1 ++
            Ev (CGet d LOGIN_URL)
               (oracle fine (CGet d LOGIN_URL) (length (trace s1)))
            :: rest
        ∧ Forall (λ e, login_call d (ev_call e)) rest
        ∧ if bool_decide (login_resp !! "status" = Some "ok") then
            ∃ dash s3 scrape_evs,
              (∃ user_el next_el pass_el login_el failed1 failed2 polling
                 url1 url2 url,
                 Ev (CGet d LOGIN_URL)
                    (oracle fine (CGet d LOGIN_URL) (length (trace s1))) :: rest
                 = login_sequence d (default JNull (creds !! "username"))
                     (default JNull (creds !! "password"))
                     user_el next_el pass_el login_el failed1 failed2
                     polling url1 url2 url)
              ∧ scrape_organization_dashboard fine d s2 = (Val dash, s3)
              ∧ trace s3 = trace s2 ++
                  Ev (CGet d DASHBOARD_URL)
                     (oracle fine (CGet d DASHBOARD_URL) (length (trace s2)))
                  :: scrape_evs
              ∧ run_action_sync fine (JStr "scrape_dashboard") (JObj creds)
                                init_state
                = (Val dash, log (quit_event fine d s3) s3)
          else
            (∃ e ts, login_resp = login_failed e (screenshot_name ts))
            ∧ run_action_sync fine (JStr "scrape_dashboard") (JObj creds)
                              init_state
              = (Val login_resp, log (quit_event fine d s2) s2)
            ∧ ∃ evs, trace (log (quit_event fine d s2) s2)
                     = trace init_state ++ evs
                     ∧ Forall (λ e, ¬ visits DASHBOARD_URL e) evs
  end.
Proof.
  apply (scrape_dashboard_logs_in_first fine "scrape_dashboard" creds
           init_state); reflexivity.
Defined.


Lemma driver_always_quit_witness :
  ∃ r s2 mid,
    run_action_sync (fails_at 5 boom) (JStr "scrape_dashboard") (JObj creds)
                    init_state
    = (Val r, log (quit_event (fails_at 5 boom) 0%nat s2) s2)
    ∧ trace s2 = trace (create_driver (fails_at 5 boom) init_state).2 ++ mid
    ∧ Forall (λ e, login_call 0%nat (ev_call e) ∨ scrape_call 0%nat (ev_call e))
             mid
    ∧ Forall (λ e, ∀ d', ev_call e ≠ CQuit d') mid
    ∧ launched (log (quit_event (fails_at 5 boom) 0%nat s2) s2)
      = S (launched init_state)
    ∧ 0%nat = launched init_state.
Proof.
  apply (driver_always_quit (fails_at 5 boom) (JStr "scrape_dashboard")
           (JObj creds) init_state 0%nat
           (create_driver (fails_at 5 boom) init_state).2).
  vm_compute; reflexivity.
Defined.

(** C1 as stated fails where the browser cannot be made: the runner
    answers with the error of the browser, and the failed installation of
    the driver is all there is in the log of the run; no login was
    tried. *)
Lemma no_login_without_browser :
  run_action_sync (fails_at 0 boom) (JStr "scrape_dashboard") (JObj creds)
                  init_state
  = (Val {[ "status" := "error";
            "message" := "Unexpected error: Message: chrome not reachable" ]},
     State [ Ev CInstall (Exc boom) ] None).
Proof. vm_compute; reflexivity. Qed.



(** C6 as stated fails for an exception that is not an [Exception]: a
    KeyboardInterrupt raised while the login page is opened passes the
    except clauses of the login handler and of the runner; the browser is
    quit, no screenshot is taken and the exception reaches the caller. *)
Lemma keyboard_interrupt_leaves_runner :
  (Strict.run_action_sync (fails_at 3 KeyboardInterrupt) (JStr "login")
                          (JObj creds) init_state).1
  = Exc KeyboardInterrupt
  ∧ map ev_call
        (trace (Strict.run_action_sync (fails_at 3 KeyboardInterrupt)
                  (JStr "login") (JObj creds) init_state).2)
    = [ CInstall;
        CChrome "/opt/chromedriver" (chrome_arguments fine) chrome_experimental;
        CSetPageLoadTimeout 0%nat 60;
        CGet 0%nat LOGIN_URL;
        CQuit 0%nat ].
Proof. split; vm_compute; reflexivity. Qed.

(** C7 as stated fails where [quit] raises: the runner has called it, the
    call raised, the error is dropped and the run returns with nothing
    else done about the browser.  (The browser is not quit either when
    [set_page_load_timeout] raises inside [create_driver]: one browser
    launched, no call of [quit].) *)
Lemma browser_not_always_closed :
  run_action_sync (fails_at 3 boom) (JStr "login") (JObj no_password) init_state
  = (Val missing_credentials,
     State [ Ev CInstall (Val "/opt/chromedriver");
             Ev (CChrome "/opt/chromedriver" (chrome_arguments fine)
                         chrome_experimental) (Val ());
             Ev (CSetPageLoadTimeout 0%nat 60) (Val ());
             Ev (CQuit 0%nat) (Exc boom) ] None)
  ∧ launches (trace (run_action_sync (fails_at 2 boom) (JStr "login")
                                     (JObj creds) init_state).2) = 1%nat
  ∧ quits (trace (run_action_sync (fails_at 2 boom) (JStr "login")
                                  (JObj creds) init_state).2) = 0%nat.
Proof. split; [ | split]; vm_compute; reflexivity. Qed.

(** C9 as stated fails where a Chrome profile is configured: the browsers
    of two requests are launched by the same call, on the same user data
    directory, so what one login leaves in the profile is there for the
    next. *)
Lemma profile_shared_between_runs :
  let rq := Request POST "/run"
              (Val (JObj {[ "action" := JStr "login";
                            "payload" := JObj creds ]})) in
  let chrome :=
    CChrome "/opt/chromedriver"
            (fixed_arguments ++ [ "--user-data-dir=/data/chrome";
                                  "--profile-directory=Default" ])
            chrome_experimental in
  map ev_call (filter launch (trace (serve with_profile [rq; rq] init_state).2))
  = [ chrome; chrome ].
Proof. vm_compute; reflexivity. Qed.


(** With a payload that is a list the answer does not name the action
    either, although every call into the libraries went well. *)
Example unknown_action_with_list_payload :
  (run fine (Val (JObj {[ "action" := JStr "noop";
                          "payload" := JArr [JInt 1] ]})) init_state).1
  = Val {[ "status" := "error";
           "message" := "Unexpected error: 'list' object has no attribute 'get'" ]}.
Proof. vm_compute; reflexivity. Qed.

(** C4 as stated fails at [GET /ping]: its answer has no "status"
    field. *)
Lemma ping_has_no_status :
  ¬ (is_Some (ping !! "status") ∧ is_Some (ping !! "message")).
Proof. intros [[x Hx] _]. vm_compute in Hx. discriminate. Qed.

(** The answer of a successful scrape has no "message" field either. *)
Example scrape_answer_has_no_message :
  (run fine (Val (JObj {[ "action" := JStr "scrape_dashboard";
                          "payload" := JObj creds ]})) init_state).1
  = Val (scrape_ok "Org")
  ∧ scrape_ok "Org" !! "status" = Some "ok"
  ∧ scrape_ok "Org" !! "message" = None.
Proof. split; [vm_compute; reflexivity | split; reflexivity]. Qed.

(** * Further properties of the code *)

Section More.

Variable E : env.

Lemma run_val {A B} (m : M A) (f : A → M B) s a s' :
  m s = (Val a, s') → (m ≫= f) s = f a s'.
Proof. intros H. by rewrite run_bind, H. Qed.

Lemma run_exc {A B} (m : M A) (f : A → M B) s e s' :
  m s = (Exc e, s') → (m ≫= f) s = (Exc e, s').
Proof. intros H. by rewrite run_bind, H. Qed.

(** ** [create_driver] *)

(** The four ways [create_driver] can go. *)
Lemma create_driver_cases s :
  let chrome path := CChrome path (chrome_arguments E) chrome_experimental in
  (∃ e, create_driver E s = (Exc e, log (Ev CInstall (Exc e)) s))
  ∨ (∃ path e,
       create_driver E s
       = (Exc e, log (Ev (chrome path) (Exc e)) (log (Ev CInstall (Val path)) s)))
  ∨ (∃ path e,
       create_driver E s
       = (Exc e, log (Ev (CSetPageLoadTimeout (launched s) 60) (Exc e))
                     (log (Ev (chrome path) (Val ()))
                          (log (Ev CInstall (Val path)) s))))
  ∨ (∃ path,
       create_driver E s
       = (Val (launched s),
          log (Ev (CSetPageLoadTimeout (launched s) 60) (Val ()))
              (log (Ev (chrome path) (Val ()))
                   (log (Ev CInstall (Val path)) s)))).
Proof.
  cbv zeta. remember (create_driver E s) as res eqn:H.
  unfold create_driver in H. rewrite run_bind in H. unfold call at 1 in H.
  destruct (oracle E CInstall _) as [path|e]; [ | left; by exists e].
  right. cbv beta in H. rewrite run_bind in H. unfold new_chrome in H.
  destruct (oracle E (CChrome _ _ _) _) as [[]|e]; [ | left; by exists path, e].
  right. cbv beta in H. rewrite run_bind in H. unfold call in H.
  change (browser_timeout (settings E) + 30) with 60 in H.
  assert (launched (log (Ev CInstall (Val path)) s) = launched s) as Hl
    by (rewrite launched_log; cbn; lia).
  rewrite Hl in H.
  destruct (oracle E (CSetPageLoadTimeout _ _) _) as [[]|e];
    [right; by exists path | left; by exists path, e].
Qed.

(** X1.  When [create_driver] returns, it has made exactly three calls,
    all of which returned: the chromedriver install, the Chrome
    constructor on the installed path with the eight fixed switches
    (followed by the two profile switches exactly when both environment
    variables are set and not empty), and [set_page_load_timeout] with 60
    seconds on the new driver, which is one no earlier call has made. *)
Theorem create_driver_returns s d s' :
  create_driver E s = (Val d, s') →
  d = launched s ∧ launched s' = S (launched s)
  ∧ (∃ path profile,
       trace s' = trace s ++
         [ Ev CInstall (Val path);
           Ev (CChrome path (fixed_arguments ++ profile) chrome_experimental)
              (Val ());
           Ev (CSetPageLoadTimeout d 60) (Val ()) ]
       ∧ match os_getenv E "CHROME_USER_DATA_DIR",
               os_getenv E "CHROME_PROFILE_DIR" with
         | Some dir, Some prof =>
             if negb (String.eqb dir "") && negb (String.eqb prof "")
             then profile = [ "--user-data-dir=" +:+ dir;
                              "--profile-directory=" +:+ prof ]
             else profile = []
         | _, _ => profile = []
         end).
Proof.
  intros H. apply create_driver_val_inv in H as (Hd & Hl & _ & path & Ht).
  do 2 (split; [done | ]).
  exists path. unfold chrome_arguments, settings, Settings_init in Ht.
  cbn [chrome_user_data_dir chrome_profile] in Ht. eexists. split; [exact Ht | ].
  destruct (os_getenv E "CHROME_USER_DATA_DIR") as [dir|],
           (os_getenv E "CHROME_PROFILE_DIR") as [prof|]; cbn; try done.
  - by destruct (negb _ && negb _).
  - by destruct (negb _).
Qed.

(** X2.  When [create_driver] raises, the exception is that of the last
    call in its log and every call before it returned; a browser has
    been launched in the meantime exactly when it was
    [set_page_load_timeout] that raised. *)
Theorem create_driver_raises s e s' :
  create_driver E s = (Exc e, s') →
  (trace s' = trace s ++ [Ev CInstall (Exc e)] ∧ launched s' = launched s)
  ∨ (∃ path,
       trace s' = trace s ++
         [ Ev CInstall (Val path);
           Ev (CChrome path (chrome_arguments E) chrome_experimental) (Exc e) ]
       ∧ launched s' = launched s)
  ∨ (∃ path,
       trace s' = trace s ++
         [ Ev CInstall (Val path);
           Ev (CChrome path (chrome_arguments E) chrome_experimental) (Val ());
           Ev (CSetPageLoadTimeout (launched s) 60) (Exc e) ]
       ∧ launched s' = S (launched s)).
Proof.
  intros H.
  destruct (create_driver_cases s)
    as [[e' H1] | [(path & e' & H1) | [(path & e' & H1) | [path H1]]]];
    rewrite H1 in H; try discriminate; injection H as <- <-.
  - left. split; [done | ]. rewrite launched_log. cbn. lia.
  - right. left. exists path. split; [by rewrite !trace_log, <- app_assoc | ].
    rewrite !launched_log. cbn. lia.
  - right. right. exists path.
    split; [by rewrite !trace_log, <- !app_assoc | ].
    rewrite !launched_log. cbn. lia.
Qed.

(** X3.  A browser whose [set_page_load_timeout] raises inside
    [create_driver] is left open: the runner answers "Unexpected error"
    with that exception, one more browser has been launched, and the log
    of the run ends with the call that raised, without a [quit]. *)
Theorem browser_left_open action payload s path e :
  oracle E CInstall (length (trace s)) = Val path →
  oracle E (CChrome path (chrome_arguments E) chrome_experimental)
         (S (length (trace s))) = Val () →
  oracle E (CSetPageLoadTimeout (launched s) 60) (S (S (length (trace s))))
    = Exc e →
  ∃ s',
    run_action_sync E action payload s = (Val (unexpected_error e), s')
    ∧ launched s' = S (launched s)
    ∧ trace s' = trace s ++
        [ Ev CInstall (Val path);
          Ev (CChrome path (chrome_arguments E) chrome_experimental) (Val ());
          Ev (CSetPageLoadTimeout (launched s) 60) (Exc e) ]
    ∧ quits [ Ev CInstall (Val path);
              Ev (CChrome path (chrome_arguments E) chrome_experimental) (Val ());
              Ev (CSetPageLoadTimeout (launched s) 60) (Exc e) ] = 0%nat.
Proof.
  intros H1 H2 H3.
  assert (create_driver E s
          = (Exc e, log (Ev (CSetPageLoadTimeout (launched s) 60) (Exc e))
                        (log (Ev (CChrome path (chrome_arguments E)
                                          chrome_experimental) (Val ()))
                             (log (Ev CInstall (Val path)) s)))) as Hc.
  { unfold create_driver. rewrite run_bind. unfold call at 1. rewrite H1.
    cbv beta. rewrite run_bind. unfold new_chrome.
    rewrite trace_log, length_app, Nat.add_1_r. cbn [length]. rewrite H2.
    cbv beta. rewrite run_bind. unfold call.
    change (browser_timeout (settings E) + 30) with 60.
    assert (launched (log (Ev CInstall (Val path)) s) = launched s) as ->
      by (rewrite launched_log; cbn; lia).
    rewrite !trace_log, !length_app, !Nat.add_1_r. cbn [length].
    by rewrite H3. }
  eexists. split; [by apply run_action_sync_not_created | ].
  split; [rewrite !launched_log; cbn; lia | ].
  split; [by rewrite !trace_log, <- !app_assoc | done].
Qed.

(** X4.  [get_driver] keeps what it has made: after a call that returned
    [d], [persistent_driver] holds [d] and a further call returns [d]
    again without any library call; a call that raises leaves
    [persistent_driver] empty, so the next one tries again. *)
Theorem get_driver_caches s :
  match get_driver E s with
  | (Val d, s') =>
      persistent_driver s' = Some d
      ∧ get_driver E s' = (Val d, s')
      ∧ (persistent_driver s = None → d = launched s)
      ∧ (∀ d0, persistent_driver s = Some d0 → d = d0 ∧ s' = s)
  | (Exc e, s') =>
      persistent_driver s = None ∧ persistent_driver s' = None
  end.
Proof.
  unfold get_driver at 1.
  destruct (persistent_driver s) as [d0|] eqn:Hp.
  - split; [done | ]. split; [unfold get_driver; by rewrite Hp | ].
    split; [done | by intros ? [= <-]].
  - destruct (create_driver_emits E s) as (_ & Hpd).
    destruct (create_driver E s) as [[d|e] s1] eqn:Hc; simpl in Hpd.
    + split; [done | ]. split; [done | ].
      split; [intros _; by apply create_driver_val_inv in Hc as (? & _) | done].
    + split; [done | congruence].
Qed.

(** ** [scrape_organization_dashboard] *)

Ltac trace_of H :=
  match type of H with
  | call _ ?c _ = _ => apply (call_val_trace _ c) in H
  | sleep _ _ = _ => apply sleep_trace in H
  end.

(** X5.  A scrape that answers with status "ok" has opened the dashboard,
    waited for the body element, slept three seconds, read the page
    source and handed that very source to the HTML parser, in this order
    and each call returning; its "text" is what the parser gave. *)
Theorem scrape_reads_after_wait d s r s' :
  scrape_organization_dashboard E d s = (Val r, s') →
  r !! "status" = Some "ok" →
  ∃ body_el html text,
    trace s' = trace s ++
      [ Ev (CGet d DASHBOARD_URL) (Val ());
        Ev (CWaitPresence d 30 (ByTagName "body")) (Val body_el);
        Ev (CSleep 3000) (Val ());
        Ev (CPageSource d) (Val html);
        Ev (CSoupGetText html newline) (Val text) ]
    ∧ r = {[ "status" := "ok"; "dashboard_url" := DASHBOARD_URL;
             "text" := text ]}.
Proof.
  unfold scrape_organization_dashboard, try_except. intros H Hok.
  destruct (scrape_steps E d s) as [[r0|e] s0] eqn:Hs.
  2: { injection H as <- _. discriminate. }
  injection H as <- <-. unfold scrape_steps in Hs.
  change (browser_timeout (settings E)) with 30 in Hs.
  apply bind_val_inv in Hs as ([] & s1 & H1 & Hs). trace_of H1.
  apply bind_val_inv in Hs as (body_el & s2 & H2 & Hs). trace_of H2.
  apply bind_val_inv in Hs as ([] & s3 & H3 & Hs). trace_of H3.
  apply bind_val_inv in Hs as (html & s4 & H4 & Hs). trace_of H4.
  apply bind_val_inv in Hs as (text & s5 & H5 & Hs). trace_of H5.
  injection Hs as <- <-. exists body_el, html, text.
  split; [ | done]. by rewrite H5, H4, H3, H2, H1, <- !app_assoc.
Qed.

Lemma orderly_mret {A} (a : A) : orderly (mret a).
Proof. intros s. exists []. by rewrite app_nil_r. Qed.

Lemma orderly_call c : orderly (call E c).
Proof.
  intros s. unfold call. destruct (oracle E c _) as [v|e].
  - exists [Ev c (Val v)]. split; [done | by repeat constructor].
  - by exists [], c.
Qed.

Lemma orderly_sleep ms : orderly (sleep ms).
Proof. intros s. exists [Ev (CSleep ms) (Val ())]. split; [done | by repeat constructor]. Qed.

Lemma orderly_bind {A B} (m : M A) (f : A → M B) :
  orderly m → (∀ a, orderly (f a)) → orderly (m ≫= f).
Proof.
  intros Hm Hf s. rewrite run_bind. specialize (Hm s).
  destruct (m s) as [[a|e] s1]; [ | done].
  destruct Hm as (evs1 & Ht1 & HP1). specialize (Hf a s1).
  destruct (f a s1) as [[b|e] s2].
  - destruct Hf as (evs2 & Ht2 & HP2). exists (evs1 ++ evs2).
    split; [by rewrite Ht2, Ht1, app_assoc | by apply Forall_app_2].
  - destruct Hf as (pre & c & Ht2 & HP2). exists (evs1 ++ pre), c.
    split; [by rewrite Ht2, Ht1, <- !app_assoc | by apply Forall_app_2].
Qed.

Lemma scrape_steps_orderly d : orderly (scrape_steps E d).
Proof.
  unfold scrape_steps.
  repeat first
    [ apply orderly_mret | apply orderly_sleep
    | match goal with |- orderly (call _ ?c) => exact (orderly_call c) end
    | apply orderly_bind; [ | intros ? ] ].
Qed.

(** X6.  A scrape that does not answer "ok" answers
    [{status: "error", message: "scrape_organization_dashboard failed: <e>"}]
    where [e] is the exception of the last call in its log; every call
    before that one returned and none was made after it. *)
Theorem scrape_reports_first_failure d s r s' :
  scrape_organization_dashboard E d s = (Val r, s') →
  r !! "status" ≠ Some "ok" →
  ∃ pre c e,
    trace s' = trace s ++ pre ++ [Ev c (Exc e)]
    ∧ Forall returned pre
    ∧ r = {[ "status" := "error";
             "message" := "scrape_organization_dashboard failed: "
                          +:+ exn_text e ]}.
Proof.
  unfold scrape_organization_dashboard, try_except. intros H Hno.
  pose proof (scrape_steps_orderly d s) as Ho.
  destruct (scrape_steps E d s) as [[r0|e] s0] eqn:Hs.
  - injection H as <- <-.
    apply scrape_steps_val_inv in Hs as [text ->]. by destruct Hno.
  - injection H as <- <-. destruct Ho as (pre & c & Ht & HP).
    by exists pre, c, e.
Qed.

(** ** The order of the credentials *)

Lemma run_assoc {A B C} (m : M A) (f : A → M B) (g : B → M C) s :
  ((m ≫= f) ≫= g) s = (m ≫= λ a, f a ≫= g) s.
Proof. rewrite !run_bind. by destruct (m s) as [[a|e] s1]. Qed.

Lemma run_ext {A B} (m : M A) (f g : A → M B) s :
  (∀ a s1, f a s1 = g a s1) → (m ≫= f) s = (m ≫= g) s.
Proof. intros H. rewrite !run_bind. by destruct (m s) as [[a|e] s1]. Qed.

(** The login steps are the first half, the wait for the password page
    and the second half. *)
Lemma login_steps_halves d u p s :
  login_steps E d u p s
  = (login_user_part E d u ;;
     call E (CWaitUrlContains d 30 "/app/auth/password") ;;
     login_password_part E d p) s.
Proof.
  unfold login_steps, login_user_part, login_password_part. cbv zeta.
  change (browser_timeout (settings E)) with 30.
  symmetry. repeat (rewrite run_assoc; apply run_ext; intros ? ?).
  reflexivity.
Qed.

Ltac logs_step :=
  first
    [ apply emits_mret | apply emits_raise | apply emits_nothing
    | apply emits_bind; [ | intros ? ]
    | apply emits_try_except; [ | intros ? ]
    | apply emits_until
    | apply emits_if
    | apply emits_call; intros ?; cbn
    | apply emits_sleep; cbn
    | apply emits_time; intros ?; cbn ].

Lemma login_user_part_emits d u :
  emits (λ e, (∀ el keys, ev_call e = CSendKeys el keys → keys = u)
              ∧ password_page_reached d e = false)
        (login_user_part E d u).
Proof.
  unfold login_user_part, click. cbv zeta.
  repeat logs_step; (split; [by intros ?? [= ?] | done]).
Qed.

Lemma login_password_part_emits d p :
  emits (λ e, ∀ el keys, ev_call e = CSendKeys el keys → keys = p)
        (login_password_part E d p).
Proof.
  unfold login_password_part, click, left_login_pages. cbv zeta.
  repeat logs_step; by intros ?? [= ?].
Qed.

Lemma login_except_no_keys d e :
  emits (λ ev, ∀ el keys, ev_call ev ≠ CSendKeys el keys) (login_except E d e).
Proof. unfold login_except. cbv zeta. repeat logs_step; by intros ??. Qed.

Lemma keys_in_order_app d u p reached evs1 evs2 :
  keys_in_order d u p reached evs1 →
  keys_in_order d u p (reached || existsb (password_page_reached d) evs1) evs2 →
  keys_in_order d u p reached (evs1 ++ evs2).
Proof.
  revert reached. induction evs1 as [|e evs1 IH]; intros reached; cbn.
  - by rewrite orb_false_r.
  - intros [He H1] H2. split; [done | ]. apply IH; [done | ].
    by rewrite <- orb_assoc.
Qed.

Lemma keys_in_order_before d u p evs :
  Forall (λ e, (∀ el keys, ev_call e = CSendKeys el keys → keys = u)
               ∧ password_page_reached d e = false) evs →
  keys_in_order d u p false evs
  ∧ existsb (password_page_reached d) evs = false.
Proof.
  induction 1 as [|e evs [He Hr] _ [IH1 IH2]]; cbn; [done | ].
  rewrite Hr. cbn. by repeat split.
Qed.

Lemma keys_in_order_after d u p evs :
  Forall (λ e, ∀ el keys, ev_call e = CSendKeys el keys → keys = p) evs →
  keys_in_order d u p true evs.
Proof. induction 1 as [|e evs He _ IH]; cbn; by repeat split. Qed.

Lemma keys_in_order_none d u p reached evs :
  Forall (λ e, ∀ el keys, ev_call e ≠ CSendKeys el keys) evs →
  keys_in_order d u p reached evs.
Proof.
  intros H. revert reached. induction H as [|e evs He _ IH]; intros reached;
    cbn; [done | ].
  split; [ | apply IH]. intros el keys Hk. by apply He in Hk.
Qed.

(** X7.  In every run of the login handler, whether it ends well or not,
    whatever is typed before the wait for "/app/auth/password" has
    returned is the user name, and whatever is typed after it is the
    password: the password is never sent to a page that was not seen to
    be the password page. *)
Theorem password_after_password_page d u p s :
  ∃ evs,
    trace (login_action E d u p s).2 = trace s ++ evs
    ∧ keys_in_order d u p false evs.
Proof.
  unfold login_action, try_except. rewrite login_steps_halves, run_bind.
  destruct (login_user_part_emits d u s) as ((evs1 & Ht1 & HP1) & _).
  apply keys_in_order_before with (p := p) in HP1 as [Hk1 Hr1].
  assert (∀ e s0 pre,
            trace s0 = trace s ++ pre → keys_in_order d u p false pre →
            ∃ evs, trace (login_except E d e s0).2 = trace s ++ evs
                   ∧ keys_in_order d u p false evs) as Hexc.
  { intros e s0 pre Ht Hk.
    destruct (login_except_no_keys d e s0) as ((evs & Hte & HPe) & _).
    exists (pre ++ evs). split; [by rewrite Hte, Ht, app_assoc | ].
    apply keys_in_order_app; [done | by apply keys_in_order_none]. }
  destruct (login_user_part E d u s) as [[[]|e] s1]; simpl in Ht1.
  2: by apply (Hexc e s1 evs1).
  rewrite run_bind. unfold call at 1.
  set (w := CWaitUrlContains d 30 "/app/auth/password").
  destruct (oracle E w (length (trace s1))) as [[]|e].
  2: { apply (Hexc e _ (evs1 ++ [Ev w (Exc e)]));
         [by rewrite trace_log, Ht1, <- app_assoc | ].
       apply keys_in_order_app; [done | ]. cbn. by split; [intros ?? [=] | ]. }
  cbv beta.
  match goal with
  | |- context [login_password_part E d p ?st] => set (s2 := st)
  end.
  assert (keys_in_order d u p false (evs1 ++ [Ev w (Val ())])) as Hk2.
  { apply keys_in_order_app; [done | ]. cbn. by split; [intros ?? [=] | ]. }
  assert (existsb (password_page_reached d) (evs1 ++ [Ev w (Val ())]) = true)
    as Hr2.
  { rewrite existsb_app. cbn. rewrite Nat.eqb_refl. by rewrite orb_true_r. }
  destruct (login_password_part_emits d p s2) as ((evs3 & Ht3 & HP3) & _).
  apply keys_in_order_after with (d := d) (u := u) in HP3.
  assert (keys_in_order d u p false ((evs1 ++ [Ev w (Val ())]) ++ evs3)) as Hk3.
  { apply keys_in_order_app; [done | by rewrite Hr2]. }
  destruct (login_password_part E d p s2) as [[r|e] s3]; simpl in Ht3.
  - exists ((evs1 ++ [Ev w (Val ())]) ++ evs3). cbn [snd].
    split; [by rewrite Ht3, Ht1, <- !app_assoc | done].
  - apply (Hexc e s3 ((evs1 ++ [Ev w (Val ())]) ++ evs3));
      [by rewrite Ht3, Ht1, <- !app_assoc | done].
Qed.

(** ** When the browser does as it is told *)

Lemma call_obliging c s :
  obliging E → ∃ v, call E c s = (Val v, log (Ev c (Val v)) s).
Proof.
  intros H. destruct (H c (length (trace s))) as [v Hv].
  exists v. unfold call. by rewrite Hv.
Qed.

Lemma click_obliging d el s :
  obliging E → click E d el s = (Val (), log (Ev (CClick el) (Val ())) s).
Proof.
  intros H. destruct (call_obliging (CClick el) s H) as [[] Hc].
  unfold click, try_except. by rewrite Hc.
Qed.

Lemma until_past_login d s :
  obliging E → past_login E →
  ∃ url1 url2,
    until E (left_login_pages E d) s
    = (Val (), log (Ev (CCurrentUrl d) (Val url2))
                   (log (Ev (CCurrentUrl d) (Val url1)) s))
    ∧ contains "/app/login" (lower url1) = false
    ∧ contains "/app/auth/password" (lower url2) = false.
Proof.
  intros Hob Hpast.
  destruct (Hob (CCurrentUrl d) (length (trace s))) as [url1 H1].
  destruct (Hob (CCurrentUrl d) (S (length (trace s)))) as [url2 H2].
  destruct (Hpast _ _ _ H1) as [Hu1 _]. destruct (Hpast _ _ _ H2) as [_ Hu2].
  exists url1, url2. split; [ | done].
  assert (left_login_pages E d s
          = (Val true, log (Ev (CCurrentUrl d) (Val url2))
                           (log (Ev (CCurrentUrl d) (Val url1)) s))) as Hl.
  { unfold left_login_pages. rewrite run_bind. unfold call at 1. rewrite H1.
    cbv beta. rewrite Hu1. cbn [negb]. rewrite run_bind. unfold call.
    rewrite trace_log, length_app, Nat.add_1_r. cbn [length].
    rewrite H2. cbn [mret M_ret]. by rewrite Hu2. }
  unfold until. destruct (polls E _); cbn [until_loop]; by rewrite Hl.
Qed.

Ltac obliged Hob H :=
  match type of H with
  | context [ (call E ?c ≫= ?f) ?s ] =>
      let Hc := fresh "Hc" in
      destruct (call_obliging c s Hob) as [? Hc];
      rewrite (run_val _ _ _ _ _ Hc) in H; clear Hc; cbv beta in H
  | context [ (sleep ?ms ≫= ?f) ?s ] =>
      rewrite (run_val (sleep ms) f s () _ eq_refl) in H; cbv beta in H
  | context [ (click E ?d ?el ≫= ?f) ?s ] =>
      rewrite (run_val _ f s () _ (click_obliging d el s Hob)) in H;
      cbv beta in H
  end.

Lemma login_action_obliging d u p s :
  obliging E → past_login E →
  ∃ user_el next_el pass_el login_el url1 url2 url s',
    login_action E d u p s = (Val (login_ok url), s')
    ∧ trace s' = trace s ++ login_sequence d u p user_el next_el pass_el
                                           login_el None None [] url1 url2 url.
Proof.
  intros Hob Hpast.
  pose proof (eq_refl (login_steps E d u p s)) as H.
  unfold login_steps at 2 in H. cbv zeta in H.
  change (browser_timeout (settings E)) with 30 in H.
  do 16 obliged Hob H.
  match type of H with
  | context [ (until E _ ≫= ?f) ?st ] =>
      destruct (until_past_login d st Hob Hpast) as (url1 & url2 & Hu & _);
      rewrite (run_val _ f st () _ Hu) in H; clear Hu; cbv beta in H
  end.
  obliged Hob H. unfold mret, M_ret in H.
  repeat match goal with
         | x : ret_type ?c |- _ =>
             let T := eval cbn in (ret_type c) in
             unify T unit; destruct x
         end.
  eexists _, _, _, _, url1, url2, _, _.
  split; [by apply login_action_val | ].
  unfold login_sequence. cbn [click_events app].
  rewrite !trace_log, <- !app_assoc. reflexivity.
Qed.

(** X8.  In an environment where no library call raises and the browser
    is never seen on a login page, the login handler answers
    [{status: "ok", message: "Login successful", current_url}] after
    exactly the calls of a login without retries: no scripted click and
    no poll besides the one that passes. *)
Theorem login_goes_through d u p s :
  obliging E → past_login E →
  ∃ user_el next_el pass_el login_el url1 url2 url s',
    login_action E d u p s = (Val (login_ok url), s')
    ∧ trace s' = trace s ++ login_sequence d u p user_el next_el pass_el
                                           login_el None None [] url1 url2 url.
Proof. apply login_action_obliging. Qed.

Lemma create_driver_obliging s :
  obliging E →
  ∃ s' evs,
    create_driver E s = (Val (launched s), s')
    ∧ trace s' = trace s ++ evs ∧ Forall returned evs.
Proof.
  intros Hob.
  pose proof (eq_refl (create_driver E s)) as H.
  unfold create_driver at 2 in H. obliged Hob H.
  rewrite run_bind in H. unfold new_chrome in H.
  match type of H with
  | context [ oracle E ?c ?n ] => destruct (Hob c n) as [[] Hc]; rewrite Hc in H
  end.
  cbv beta in H. obliged Hob H. unfold mret, M_ret in H.
  repeat match goal with
         | x : ret_type ?c |- _ =>
             let T := eval cbn in (ret_type c) in
             unify T unit; destruct x
         end.
  assert (launched (log (Ev CInstall (Val x)) s) = launched s) as Hl
    by (rewrite launched_log; cbn; lia).
  rewrite Hl in H. eexists _, _. split; [exact H | ].
  split; [rewrite !trace_log, <- !app_assoc; reflexivity | ].
  by repeat constructor.
Qed.

Lemma scrape_obliging d s :
  obliging E →
  ∃ text s' evs,
    scrape_organization_dashboard E d s = (Val (scrape_ok text), s')
    ∧ trace s' = trace s ++ evs ∧ Forall returned evs.
Proof.
  intros Hob.
  pose proof (eq_refl (scrape_steps E d s)) as H.
  unfold scrape_steps at 2 in H. do 5 obliged Hob H. unfold mret, M_ret in H.
  unfold scrape_organization_dashboard, try_except. rewrite H.
  eexists _, _, _. split; [done | ].
  split; [rewrite !trace_log, <- !app_assoc; reflexivity | ].
  by repeat constructor.
Qed.

Lemma login_sequence_returned d u p e1 e2 e3 e4 u1 u2 url :
  Forall returned (login_sequence d u p e1 e2 e3 e4 None None [] u1 u2 url).
Proof. unfold login_sequence. cbn. by repeat constructor. Qed.

(** X9.  In such an environment a run for "login" or "scrape_dashboard"
    with user name and password answers with status "ok" -- the login
    dictionary for "login", the dashboard dictionary for
    "scrape_dashboard" -- every call of the run has returned, and the
    last one is the quit of the driver the run has made. *)
Theorem run_goes_through a m s :
  obliging E → past_login E →
  handled a = true →
  truthy (default JNull (m !! "username")) = true →
  truthy (default JNull (m !! "password")) = true →
  ∃ r s' evs,
    run_action_sync E (JStr a) (JObj m) s = (Val r, s')
    ∧ (if String.eqb (lower a) "login" then ∃ url, r = login_ok url
       else ∃ text, r = scrape_ok text)
    ∧ trace s' = trace s ++ evs ++ [Ev (CQuit (launched s)) (Val ())]
    ∧ Forall returned evs.
Proof.
  intros Hob Hpast Hh Hu Hp.
  destruct (create_driver_obliging s Hob) as (s1 & cevs & Hc & Hct & Hcr).
  rewrite (run_action_sync_created _ _ _ _ _ _ Hc), try_finally_quit.
  unfold try_except. rewrite py_or_dict, run_action_steps_dict. cbv zeta.
  rewrite Hu, Hp. cbn [negb orb].
  destruct (login_action_obliging (launched s) (default JNull (m !! "username"))
              (default JNull (m !! "password")) s1 Hob Hpast)
    as (e1 & e2 & e3 & e4 & u1 & u2 & url & s2 & Hl & Hlt).
  rewrite Hl.
  assert (∀ st, quit_event E (launched s) st = Ev (CQuit (launched s)) (Val ()))
    as Hq.
  { intros st. unfold quit_event.
    by destruct (Hob (CQuit (launched s)) (length (trace st))) as [[] ->]. }
  unfold handled in Hh.
  destruct (String.eqb (lower a) "login").
  - exists (login_ok url), (log (quit_event E (launched s) s2) s2),
      (cevs ++ login_sequence (launched s) (default JNull (m !! "username"))
                 (default JNull (m !! "password")) e1 e2 e3 e4 None None []
                 u1 u2 url).
    split; [done | ]. split; [by exists url | ].
    split; [by rewrite trace_log, Hq, Hlt, Hct, <- !app_assoc | ].
    apply Forall_app_2; [done | apply login_sequence_returned].
  - cbn [orb] in Hh. rewrite Hh.
    replace (bool_decide (login_ok url !! "status" = Some "ok")) with true
      by done.
    destruct (scrape_obliging (launched s) s2 Hob)
      as (text & s3 & sevs & Hs & Hst & Hsr).
    rewrite Hs.
    exists (scrape_ok text), (log (quit_event E (launched s) s3) s3),
      (cevs ++ login_sequence (launched s) (default JNull (m !! "username"))
                 (default JNull (m !! "password")) e1 e2 e3 e4 None None []
                 u1 u2 url ++ sevs).
    split; [done | ]. split; [by exists text | ].
    split; [by rewrite trace_log, Hq, Hst, Hlt, Hct, <- !app_assoc | ].
    apply Forall_app_2; [done | ].
    apply Forall_app_2; [apply login_sequence_returned | done].
Qed.

(** ** The runner and the endpoint on odd input *)

(** The log of a run starts with the log of [create_driver]. *)
Lemma run_action_sync_starts action payload s :
  ∃ evs, trace (run_action_sync E action payload s).2
         = trace (create_driver E s).2 ++ evs.
Proof.
  unfold run_action_sync.
  destruct (create_driver E s) as [[d|e] s1]; [ | exists []; by rewrite app_nil_r].
  rewrite try_finally_quit. cbn [snd].
  set (body := try_except _ _).
  assert (emits (λ _, True) body) as Hb.
  { apply emits_try_except; [ | intros e; apply emits_mret].
    apply (emits_mono _ _ _ (λ _ _, I) (run_action_steps_emits E d action _)). }
  destruct (Hb s1) as ((evs & Ht & _) & _).
  exists (evs ++ [quit_event E d (body s1).2]).
  by rewrite trace_log, Ht, <- app_assoc.
Qed.

Lemma run_rejects_early_aux request s :
  match request with
  | Exc e => run E request s = (Val (server_error e), s)
  | Val (JObj m) => True
  | Val body =>
      run E request s = (Val (server_error (AttributeError body "get")), s)
  end.
Proof. destruct request as [body|e]; [by destruct body | done]. Qed.

(** X10.  [POST /run] answers a request whose body is not JSON, or not a
    JSON object, or has no true "action" with an error dictionary and
    without any library call; for every other request the first thing it
    does, before it looks at the action, is the chromedriver install. *)
Theorem run_rejects_early request s :
  match request with
  | Exc e => run E request s = (Val (server_error e), s)
  | Val (JObj m) =>
      if truthy (default JNull (m !! "action")) then
        ∃ evs, trace (run E request s).2
               = trace s ++ Ev CInstall (oracle E CInstall (length (trace s)))
                            :: evs
      else run E request s = (Val missing_action, s)
  | Val body =>
      run E request s = (Val (server_error (AttributeError body "get")), s)
  end.
Proof.
  destruct request as [body|e]; [ | done].
  destruct body as [ | | | | | |m]; try done.
  rewrite run_dict. cbv zeta. destruct (truthy _); [ | done].
  destruct (run_action_sync_starts (default JNull (m !! "action"))
              (default (JObj ∅) (m !! "payload")) s) as [evs Ht].
  assert (∃ evs0, trace (create_driver E s).2
                  = trace s ++ Ev CInstall (oracle E CInstall (length (trace s)))
                               :: evs0) as [evs0 Hc].
  { unfold create_driver. apply (call_first E (λ _, True) CInstall). intros path.
    apply emits_bind; [by apply emits_new_chrome | intros d].
    apply emits_bind; [by apply emits_call | intros _; apply emits_mret]. }
  destruct (oracle E (CFutureResult 300) _) as [u|e]; cbn [snd];
    eexists; rewrite trace_log, Ht, Hc, <- !app_assoc; cbn [app]; reflexivity.
Qed.

(** X11.  When the payload is true but not a dictionary, or the action is
    not a string, the runner still creates the browser, answers
    "Unexpected error" with the attribute error of the value, and quits
    the browser without any other call. *)
Theorem wrong_types_reported action payload s d s1 e :
  create_driver E s = (Val d, s1) →
  type_error action (py_or payload (JObj ∅)) = Some e →
  run_action_sync E action payload s
  = (Val (unexpected_error e), log (quit_event E d s1) s1).
Proof.
  intros Hc Ht.
  rewrite (run_action_sync_created _ _ _ _ _ _ Hc), try_finally_quit.
  unfold try_except.
  destruct (py_or payload (JObj ∅)) as [ | | | | | |m]; cbn in Ht;
    try (injection Ht as <-; reflexivity).
  destruct action; try discriminate; injection Ht as <-; reflexivity.
Qed.

(** X12.  For "login" with user name and password the runner's answer is
    the login handler's answer, whatever it is, and the quit follows the
    handler's last call. *)
Theorem login_answer_passed_on a m s d s1 :
  lower a = "login" →
  truthy (default JNull (m !! "username")) = true →
  truthy (default JNull (m !! "password")) = true →
  create_driver E s = (Val d, s1) →
  ∃ r s2,
    login_action E d (default JNull (m !! "username"))
                 (default JNull (m !! "password")) s1 = (Val r, s2)
    ∧ run_action_sync E (JStr a) (JObj m) s
      = (Val r, log (quit_event E d s2) s2).
Proof.
  intros Ha Hu Hp Hc.
  destruct (login_action_run E d (default JNull (m !! "username"))
              (default JNull (m !! "password")) s1) as (r & s2 & _ & Hl & _).
  exists r, s2. split; [done | ].
  rewrite (run_action_sync_created _ _ _ _ _ _ Hc), try_finally_quit.
  unfold try_except. rewrite py_or_dict, run_action_steps_dict. cbv zeta.
  by rewrite Ha, Hu, Hp, Hl.
Qed.

(** ** One browser for each run *)

Lemma quits_app evs1 evs2 : quits (evs1 ++ evs2) = (quits evs1 + quits evs2)%nat.
Proof. unfold quits. by rewrite filter_app, length_app. Qed.

Lemma launches_cons e evs :
  launches (e :: evs) = ((if launch e then 1 else 0) + launches evs)%nat.
Proof.
  change (e :: evs) with ([e] ++ evs). rewrite launches_app. f_equal.
  unfold launches. cbn. by destruct (launch e).
Qed.

Lemma quits_cons e evs :
  quits (e :: evs) = ((if quit_call e then 1 else 0) + quits evs)%nat.
Proof.
  change (e :: evs) with ([e] ++ evs). rewrite quits_app. f_equal.
  unfold quits. cbn. by destruct (quit_call e).
Qed.

Lemma quits_none (P : event → Prop) evs :
  (∀ e, P e → quit_call e = false) → Forall P evs → quits evs = 0%nat.
Proof.
  intros HP. induction 1 as [|e evs He _ IH]; [done | ].
  change (e :: evs) with ([e] ++ evs). rewrite quits_app, IH.
  unfold quits. cbn. by rewrite (HP e He).
Qed.

Lemma handler_quits_none d e :
  login_call d (ev_call e) ∨ scrape_call d (ev_call e) → quit_call e = false.
Proof.
  destruct e as [c r]. unfold quit_call.
  destruct c; simpl; try done; by intros [[]|[]].
Qed.

(** What one run adds to the log. *)
Lemma run_action_sync_log action payload s :
  ∃ evs,
    trace (run_action_sync E action payload s).2 = trace s ++ evs
    ∧ Forall (λ e, ∀ d, call_driver (ev_call e) = Some d → d = launched s) evs
    ∧ (quits evs ≤ launches evs)%nat ∧ (launches evs ≤ 1)%nat.
Proof.
  destruct (create_driver_cases s)
    as [[e H1] | [(path & e & H1) | [(path & e & H1) | [path H1]]]].
  1-3: rewrite (run_action_sync_not_created _ _ _ _ _ _ H1); cbn [snd];
       eexists; (split; [rewrite !trace_log, <- ?app_assoc; reflexivity | ]).
  1-3: cbn [app]; (split; [ | rewrite ?launches_cons, ?quits_cons; cbn; lia]);
       repeat (apply Forall_cons; split; [by intros ? [= <-] | ]);
       apply Forall_nil_2.
  rewrite (run_action_sync_created _ _ _ _ _ _ H1), try_finally_quit. cbn [snd].
  set (d := launched s). set (body := try_except _ _).
  assert (emits (λ e, login_call d (ev_call e) ∨ scrape_call d (ev_call e)) body)
    as Hb.
  { apply emits_try_except; [apply run_action_steps_emits | intros e; apply emits_mret]. }
  match goal with |- context [body ?st] => destruct (Hb st) as ((mid & Ht & HP) & _) end.
  eexists. split.
  { rewrite trace_log, Ht, !trace_log, <- !app_assoc. cbn [app]. reflexivity. }
  assert (launches mid = 0%nat) as Hlm
    by apply (launches_none _ mid (handler_launches_none d) HP).
  assert (quits mid = 0%nat) as Hqm
    by apply (quits_none _ mid (handler_quits_none d) HP).
  split.
  - repeat (apply Forall_cons; split; [by intros ? [= <-] | ]).
    apply Forall_app_2.
    + eapply Forall_impl; [apply HP | ]. intros e He d' Hd'.
      by apply (handler_call_driver d e d' He).
    + repeat constructor. by intros ? [= <-].
  - rewrite !launches_cons, !quits_cons, quits_app, launches_app, Hlm, Hqm,
      !launches_cons, !quits_cons.
    cbn. lia.
Qed.

(** X13.  Every call of a run that names a driver names the driver that
    this run has launched: no run touches the browser of another. *)
Theorem run_uses_own_driver action payload s :
  ∃ evs,
    trace (run_action_sync E action payload s).2 = trace s ++ evs
    ∧ Forall (λ e, ∀ d, call_driver (ev_call e) = Some d → d = launched s) evs.
Proof.
  destruct (run_action_sync_log action payload s) as (evs & Ht & Hd & _).
  by exists evs.
Qed.

Lemma run_log request s :
  ∃ evs,
    trace (run E request s).2 = trace s ++ evs
    ∧ (quits evs ≤ launches evs)%nat ∧ (launches evs ≤ 1)%nat.
Proof.
  pose proof (run_rejects_early_aux request s) as H.
  destruct request as [body|e].
  2: { rewrite H. exists []. split; [by rewrite app_nil_r | cbn; lia]. }
  destruct body as [ | | | | | |m];
    try (rewrite H; exists []; split; [by rewrite app_nil_r | cbn; lia]).
  clear H. rewrite run_dict. cbv zeta.
  destruct (truthy _); [ | exists []; split; [by rewrite app_nil_r | cbn; lia]].
  destruct (run_action_sync_log (default JNull (m !! "action"))
              (default (JObj ∅) (m !! "payload")) s) as (evs & Ht & _ & Hq & Hl).
  destruct (oracle E (CFutureResult 300) _) as [u|e]; cbn [snd];
    eexists (evs ++ [_]);
    (split; [by rewrite trace_log, Ht, <- app_assoc | ]);
    rewrite quits_app, launches_app, launches_cons, quits_cons; cbn; lia.
Qed.

(** ** Routing *)

Lemma handle_cases rq s :
  if reaches_run rq then
    ∃ r, run E (req_json rq) s = (Val r, (run E (req_json rq) s).2)
         ∧ handle E rq s = (Val (Some r), (run E (req_json rq) s).2)
  else if method_eqb (req_method rq) GET && String.eqb (req_path rq) "/ping"
  then handle E rq s = (Val (Some ping), s)
  else handle E rq s = (Val None, s).
Proof.
  destruct rq as [m p j]. unfold reaches_run, handle, find_route, routes.
  cbn [req_method req_path req_json List.find fst snd].
  rewrite (String.eqb_sym "/run" p), (String.eqb_sym "/ping" p).
  destruct m; cbn [method_eqb andb].
  - by destruct (String.eqb p "/ping").
  - destruct (String.eqb p "/run"); cbn -[run ping]; [ | done].
    destruct (run_total E j s) as [r Hr]. exists r.
    rewrite run_bind.
    destruct (run E j s) as [res s1]. simpl in Hr. by subst res.
Qed.

Lemma handle_log rq s :
  ∃ evs,
    trace (handle E rq s).2 = trace s ++ evs
    ∧ (quits evs ≤ launches evs)%nat
    ∧ (launches evs ≤ if reaches_run rq then 1 else 0)%nat
    ∧ ∃ r, (handle E rq s).1 = Val r.
Proof.
  pose proof (handle_cases rq s) as H.
  destruct (reaches_run rq).
  - destruct H as (r & _ & ->).
    destruct (run_log (req_json rq) s) as (evs & Ht & Hq & Hl).
    exists evs. by eauto.
  - exists []. destruct (_ && _); rewrite H;
      (split; [by rewrite app_nil_r | ]); (split; [cbn; lia | ]);
      (split; [cbn; lia | by eexists]).
Qed.

Lemma run_requests_cons rq rqs :
  run_requests (rq :: rqs)
  = ((if reaches_run rq then 1 else 0) + run_requests rqs)%nat.
Proof. unfold run_requests. cbn. by destruct (reaches_run rq). Qed.

(** X14.  Over any sequence of requests, the number of browsers launched
    is at most the number of requests that reached [run], and the number
    of quits is at most the number of launches: one browser per run at
    most, and never a quit without a browser. *)
Theorem one_browser_per_run rqs s :
  ∃ evs,
    trace (serve E rqs s).2 = trace s ++ evs
    ∧ (quits evs ≤ launches evs)%nat
    ∧ (launches evs ≤ run_requests rqs)%nat.
Proof.
  revert s. induction rqs as [|rq rqs IH]; intros s.
  - exists []. split; [by rewrite app_nil_r | cbn; lia].
  - destruct (handle_log rq s) as (evs1 & Ht1 & Hq1 & Hl1 & r & Hr).
    destruct (IH (handle E rq s).2) as (evs2 & Ht2 & Hq2 & Hl2).
    exists (evs1 ++ evs2).
    assert ((serve E (rq :: rqs) s).2 = (serve E rqs (handle E rq s).2).2) as ->.
    { cbn [serve]. rewrite run_bind.
      destruct (handle E rq s) as [res s1]. simpl in Hr. subst res.
      rewrite run_bind. cbn [snd].
      by destruct (serve E rqs s1) as [[rs|e] s2]. }
    split; [by rewrite Ht2, Ht1, app_assoc | ].
    rewrite quits_app, launches_app, run_requests_cons. lia.
Qed.

(** ** Screenshot names *)

Lemma string_app_cons c (s1 s2 : string) :
  String c s1 +:+ s2 = String c (s1 +:+ s2).
Proof. reflexivity. Qed.

Lemma string_length_app (s1 s2 : string) :
  String.length (s1 +:+ s2) = (String.length s1 + String.length s2)%nat.
Proof.
  induction s1 as [|c s1 IH]; [done | ].
  rewrite string_app_cons. cbn [String.length]. by rewrite IH.
Qed.

Lemma string_app_inv_tail (s1 s2 t : string) : s1 +:+ t = s2 +:+ t → s1 = s2.
Proof.
  revert s2. induction s1 as [|c s1 IH]; intros [|c2 s2] H.
  - done.
  - apply (f_equal String.length) in H.
    rewrite !string_length_app in H. cbn [String.length] in H. lia.
  - apply (f_equal String.length) in H.
    rewrite !string_length_app in H. cbn [String.length] in H. lia.
  - rewrite !string_app_cons in H. injection H as -> H. f_equal. by apply IH.
Qed.

Lemma to_int_not_nil z : Z.to_int z ≠ Decimal.Pos Decimal.Nil
                         ∧ Z.to_int z ≠ Decimal.Neg Decimal.Nil.
Proof.
  destruct z as [|q|q]; cbn; (split; [ | try done]); try done;
    intros [= H]; by apply DecimalPos.Unsigned.to_uint_nonnil in H.
Qed.

Lemma str_int_inj z1 z2 : str_int z1 = str_int z2 → z1 = z2.
Proof.
  unfold str_int. intros H.
  apply (f_equal NilZero.int_of_string) in H.
  destruct (to_int_not_nil z1) as [H1 H1'], (to_int_not_nil z2) as [H2 H2'].
  rewrite !NilZero.isi in H by done.
  injection H as H. by apply DecimalZ.to_int_inj.
Qed.

(** X16.  The screenshot of a failed login is named after the second in
    which it failed and nothing else: failures in different seconds get
    different files, failures in the same second the same file. *)
Theorem screenshot_name_by_second t1 t2 :
  screenshot_name t1 = screenshot_name t2 ↔ t1 = t2.
Proof.
  split; [ | by intros ->]. unfold screenshot_name. intros H.
  apply (inj (String.append "screenshot_")) in H.
  apply string_app_inv_tail in H. by apply str_int_inj.
Qed.

(** ** What an answer tells *)

(** X17.  An answer of the runner with status "ok" tells which branch
    ran: for "login" it is the login dictionary with "current_url", for
    "scrape_dashboard" the dashboard dictionary with "text" (the login
    dictionary of the login that went before is dropped); no other action
    is ever answered with "ok". *)
Theorem ok_answer_tells_action a payload s r s' :
  run_action_sync E (JStr a) payload s = (Val r, s') →
  r !! "status" = Some "ok" →
  (lower a = "login" ∧ ∃ url, r = login_ok url)
  ∨ (lower a = "scrape_dashboard" ∧ ∃ text, r = scrape_ok text).
Proof.
  intros H Hok. apply (f_equal fst) in H. cbn [fst] in H.
  unfold run_action_sync in H.
  destruct (create_driver E s) as [[d|e] s1].
  2: { apply Val_inj in H. by subst r. }
  rewrite try_finally_quit in H. cbn [fst] in H. unfold try_except in H.
  destruct (py_or payload (JObj ∅)) as [ | | | | | |m];
    try (apply Val_inj in H; by subst r).
  rewrite run_action_steps_dict in H. cbv zeta in H.
  set (u := default JNull (m !! "username")) in *.
  set (p := default JNull (m !! "password")) in *.
  set (missing := negb (truthy u) || negb (truthy p)) in *.
  destruct (login_action_answer E d u p s1) as (lr & s2 & levs & Hl & _ & Hcase).
  rewrite Hl in H.
  destruct (String.eqb_spec (lower a) "login") as [Ha|_].
  { left. split; [done | ].
    destruct missing; apply Val_inj in H; subst r; [done | ].
    destruct Hcase as [(url & -> & _) | (e & ts & res & -> & _)];
      [by exists url | done]. }
  destruct (String.eqb_spec (lower a) "scrape_dashboard") as [Ha|_].
  2: { apply Val_inj in H. by subst r. }
  right. split; [done | ].
  destruct missing; [apply Val_inj in H; by subst r | ].
  destruct (bool_decide_reflect (lr !! "status" = Some "ok")) as [Hlok|Hne].
  2: { apply Val_inj in H. by subst r. }
  destruct (scrape_answer E d s2) as (sr & s3 & sevs & Hs & _ & _ & Hr).
  rewrite Hs in H. apply Val_inj in H. subst sr.
  destruct Hr as [[text ->] | [e ->]]; [by exists text | done].
Qed.

(** ** Where the handlers go *)

Lemma login_call_footprint d e : login_call d (ev_call e) → footprint d LOGIN_URL e.
Proof.
  destruct e as [c r]. unfold footprint, quit_call.
  destruct c; simpl; try done; intros H;
    repeat split; try done; try (by intros ? [= <-]); try (by intros ?? [=]).
  - intros ? [= <-]. by destruct H.
  - intros ?? [= _ <-]. by destruct H.
Qed.

Lemma scrape_call_footprint d e :
  scrape_call d (ev_call e) → footprint d DASHBOARD_URL e.
Proof.
  destruct e as [c r]. unfold footprint, quit_call.
  destruct c; simpl; try done; intros H;
    repeat split; try done; try (by intros ? [= <-]); try (by intros ?? [=]).
  - intros ? [= <-]. by destruct H.
  - intros ?? [= _ <-]. by destruct H.
Qed.

(** X18.  Whatever happens, the login handler only calls on the driver it
    was given and opens only the login page, the scraper only calls on
    its driver and opens only the dashboard; neither launches or quits a
    browser, and the scraper neither types nor takes a screenshot. *)
Theorem handlers_keep_to_their_page d u p s :
  (∃ evs, trace (login_action E d u p s).2 = trace s ++ evs
          ∧ Forall (footprint d LOGIN_URL) evs)
  ∧ (∃ evs, trace (scrape_organization_dashboard E d s).2 = trace s ++ evs
            ∧ Forall (footprint d DASHBOARD_URL) evs
            ∧ Forall no_screenshot evs
            ∧ Forall (λ e, ∀ el keys, ev_call e ≠ CSendKeys el keys) evs).
Proof.
  split.
  - destruct (login_action_emits E d u p s) as ((evs & Ht & HP) & _).
    exists evs. split; [done | ].
    eapply Forall_impl; [apply HP | ]. intros e. apply login_call_footprint.
  - destruct (scrape_emits E d s) as ((evs & Ht & HP) & _).
    exists evs. split; [done | ]. repeat split.
    + eapply Forall_impl; [apply HP | ]. intros e. apply scrape_call_footprint.
    + eapply Forall_impl; [apply HP | ]. intros e. apply scrape_call_no_screenshot.
    + eapply Forall_impl; [apply HP | ]. intros [c r] H el keys Hc.
      simpl in *. by subst c.
Qed.

End More.

(** * Exceptions that are not [Exception]s *)

Section Interrupts.

Variable E : env.

(** ** What can leave a computation *)

Lemma throws_mret {A} P (a : A) : throws P (mret a).
Proof. intros s e s' H. discriminate. Qed.

Lemma throws_raise {A} (P : exn → Prop) e : P e → throws P (@raise A e).
Proof. intros He s e' s' H. by injection H as <- _. Qed.

Lemma throws_total {A} P (m : M A) : total m → throws P m.
Proof. intros Hm s e s' H. destruct (Hm s) as [a Ha]. by rewrite H in Ha. Qed.

Lemma throws_bind {A B} P (m : M A) (f : A → M B) :
  throws P m → (∀ a, throws P (f a)) → throws P (m ≫= f).
Proof.
  intros Hm Hf s e s'. rewrite run_bind.
  destruct (m s) as [[a|e0] s1] eqn:Hms; [apply Hf | ].
  intros H. injection H as <- _. by eapply Hm.
Qed.

Lemma throws_try_except {A} P (body : M A) handler :
  (∀ e, throws P (handler e)) → throws P (try_except body handler).
Proof.
  intros Hh s e s'. unfold try_except.
  destruct (body s) as [[a|e0] s1]; [discriminate | apply Hh].
Qed.

Lemma throws_if {A} P (b : bool) (m1 m2 : M A) :
  throws P m1 → throws P m2 → throws P (if b then m1 else m2).
Proof. by destruct b. Qed.

Lemma throws_sleep P ms : throws P (sleep ms).
Proof. intros s e s' H. discriminate. Qed.

Lemma throws_py_get obj key dflt :
  throws (λ e, isinstance_Exception e = true) (py_get obj key dflt).
Proof. destruct obj; first [apply throws_mret | by apply throws_raise]. Qed.

Lemma throws_py_lower obj :
  throws (λ e, isinstance_Exception e = true) (py_lower obj).
Proof. destruct obj; first [apply throws_mret | by apply throws_raise]. Qed.

Lemma throws_until_loop (P : exn → Prop) more method :
  P TimeoutException → throws P method → throws P (until_loop more method).
Proof.
  intros Ht Hm. induction more as [|more IH]; intros s e s'; cbn [until_loop];
    destruct (method s) as [[[]|e0] s1] eqn:Hms;
    try destruct (String.eqb _ _); intros H;
    first [ discriminate
          | by apply IH in H
          | by injection H as <- _
          | injection H as <- _; by eapply Hm ].
Qed.

(** An except clause for [Exception] is the catch-all clause on a body
    that raises [Exception]s only. *)
Lemma try_except_Exception_all {A} (body : M A) handler s :
  throws (λ e, isinstance_Exception e = true) body →
  try_except_Exception body handler s = try_except body handler s.
Proof.
  intros Hb. unfold try_except_Exception, try_except.
  destruct (body s) as [[a|e] s1] eqn:Hs; [done | ].
  by rewrite (Hb _ _ _ Hs).
Qed.

(** What passes an except clause for [Exception] is no [Exception]. *)
Lemma throws_try_except_Exception {A} (body : M A) handler :
  (∀ e, total (handler e)) →
  throws (λ e, isinstance_Exception e = false)
         (try_except_Exception body handler).
Proof.
  intros Hh s e s'. unfold try_except_Exception.
  destruct (body s) as [[a|e0] s1]; [discriminate | ].
  destruct (isinstance_Exception e0) eqn:He0.
  - intros H. destruct (Hh e0 s1) as [a Ha]. by rewrite H in Ha.
  - by intros [= <- _].
Qed.

(** ** Where the libraries raise [Exception]s only *)

Section Exceptions_only.

Hypothesis HE : only_Exceptions E.

Abbreviation Exceptions := (throws (λ e, isinstance_Exception e = true)).

Lemma throws_call c : Exceptions (call E c).
Proof using HE. intros s e s' H. injection H as H _. by eapply HE. Qed.

Lemma throws_new_chrome path args exp : Exceptions (new_chrome E path args exp).
Proof using HE.
  intros s e s'. unfold new_chrome.
  destruct (oracle E _ _) as [u|e0] eqn:Ho; [discriminate | ].
  intros [= <- _]. by eapply HE.
Qed.

Ltac throws_step :=
  first
    [ apply throws_mret
    | match goal with |- throws _ (call _ ?c) => apply (throws_call c) end
    | apply throws_sleep | apply throws_new_chrome
    | apply throws_py_get | apply throws_py_lower
    | apply throws_bind; [ | intros ? ]
    | apply throws_try_except; intros ?
    | apply throws_until_loop; [reflexivity | ]
    | apply throws_if ].

Lemma create_driver_throws : Exceptions (create_driver E).
Proof using HE. unfold create_driver. repeat throws_step. Qed.

Lemma login_steps_throws d u p : Exceptions (login_steps E d u p).
Proof using HE.
  unfold login_steps, click, left_login_pages. cbv zeta.
  repeat first [throws_step | intros s; unfold until].
Qed.

Lemma scrape_steps_throws d : Exceptions (scrape_steps E d).
Proof using HE. unfold scrape_steps. repeat throws_step. Qed.

Lemma strict_login_action d u p s :
  Strict.login_action E d u p s = login_action E d u p s.
Proof using HE. apply try_except_Exception_all, login_steps_throws. Qed.

Lemma strict_scrape d s :
  Strict.scrape_organization_dashboard E d s
  = scrape_organization_dashboard E d s.
Proof using HE. apply try_except_Exception_all, scrape_steps_throws. Qed.

Lemma strict_run_action_steps d action payload s :
  Strict.run_action_steps E d action payload s
  = run_action_steps E d action payload s.
Proof using HE.
  unfold Strict.run_action_steps, run_action_steps.
  repeat (apply run_ext; intros ? ?).
  repeat first
    [ apply strict_login_action | apply strict_scrape | reflexivity
    | match goal with |- context [if ?b then _ else _] => destruct b end
    | apply run_ext; intros ? ?
    | rewrite !run_bind, strict_login_action;
      destruct (login_action E d _ _ _) as [[? | ?] ?] ].
Qed.

Lemma run_action_steps_throws d action payload :
  Exceptions (run_action_steps E d action payload).
Proof using HE.
  unfold run_action_steps.
  repeat first
    [ apply throws_total, login_action_total
    | apply throws_total, scrape_total
    | throws_step ].
Qed.

Lemma strict_run_action_sync action payload s :
  Strict.run_action_sync E action payload s = run_action_sync E action payload s.
Proof using HE.
  unfold Strict.run_action_sync, run_action_sync. cbv zeta.
  destruct (create_driver E s) as [[d|e] s1] eqn:Hc.
  - unfold try_finally, try_except_Exception, try_except.
    rewrite strict_run_action_steps.
    destruct (run_action_steps E d action _ s1) as [[r|e] s2] eqn:Hr; [done | ].
    by rewrite (run_action_steps_throws _ _ _ _ _ _ Hr).
  - by rewrite (create_driver_throws _ _ _ Hc).
Qed.

Lemma throws_submit_result {A} (task : M A) timeout :
  total task → Exceptions (submit_result E task timeout).
Proof using HE.
  intros Ht s e s'. unfold submit_result, call.
  destruct (Ht s) as [a Ha]. destruct (task s) as [r s1].
  simpl in Ha. subst r.
  destruct (oracle E (CFutureResult timeout) _) as [u|e0] eqn:Ho;
    [discriminate | ].
  intros [= <- _]. by eapply HE.
Qed.

Lemma strict_run request s :
  (∀ e, request = Exc e → isinstance_Exception e = true) →
  Strict.run E request s = run E request s.
Proof using HE.
  intros Hrq. unfold Strict.run.
  rewrite try_except_Exception_all.
  - unfold run, try_except.
    match goal with
    | |- match ?b1 s with _ => _ end = match ?b2 s with _ => _ end =>
        assert (b1 s = b2 s) as ->; [ | done]
    end.
    repeat (apply run_ext; intros ? ?).
    match goal with |- context [negb ?b] => destruct (negb b) end; [done | ].
    rewrite !run_bind. unfold submit_result.
    by rewrite strict_run_action_sync.
  - repeat first
      [ apply throws_bind; [ | intros ? ]
      | apply throws_py_get | apply throws_mret | apply throws_if ].
    + intros s0 e s' H. injection H as H _. by apply Hrq.
    + intros s0 e s'. unfold submit_result.
      rewrite strict_run_action_sync.
      apply (throws_submit_result _ _ (run_action_sync_total E _ _)).
Qed.

End Exceptions_only.

(** ** The runner *)

(** C6, as the code has it.  The runner returns a dictionary or lets an
    exception pass that is not an instance of [Exception]
    (KeyboardInterrupt, SystemExit, GeneratorExit): an [Exception] of
    browser construction, or of anything else in its try block, becomes
    the "Unexpected error" dictionary, one inside the login sequence the
    login handler's error dictionary and one inside the scraping steps the
    scraper's; any other exception goes through these clauses to the
    caller, after [quit] on the driver when there is one.  Where the
    library calls raise [Exception]s only, the runner therefore always
    returns a dictionary, the one computed with catch-all clauses. *)
Theorem run_action_sync_catches_exceptions action payload s :
  match Strict.run_action_sync E action payload s with
  | (Val r, _) => True
  | (Exc e, _) => isinstance_Exception e = false
  end
  ∧ match create_driver E s with
    | (Exc e, s1) =>
        Strict.run_action_sync E action payload s
        = (if isinstance_Exception e then Val (unexpected_error e) else Exc e,
           s1)
    | (Val d, s1) =>
        match Strict.run_action_steps E d action (py_or payload (JObj ∅)) s1 with
        | (Val r, s2) =>
            Strict.run_action_sync E action payload s
            = (Val r, log (quit_event E d s2) s2)
        | (Exc e, s2) =>
            Strict.run_action_sync E action payload s
            = (if isinstance_Exception e then Val (unexpected_error e)
               else Exc e,
               log (quit_event E d s2) s2)
        end
    end
  ∧ (∀ d u p s0,
       match login_steps E d u p s0 with
       | (Val r, s1) => Strict.login_action E d u p s0 = (Val r, s1)
       | (Exc e, s1) =>
           if isinstance_Exception e then
             (Strict.login_action E d u p s0).1
             = Val (login_failed e (screenshot_name (clock E (length (trace s1)))))
           else Strict.login_action E d u p s0 = (Exc e, s1)
       end)
  ∧ (∀ d s0,
       match scrape_steps E d s0 with
       | (Val r, s1) =>
           Strict.scrape_organization_dashboard E d s0 = (Val r, s1)
       | (Exc e, s1) =>
           Strict.scrape_organization_dashboard E d s0
           = (if isinstance_Exception e then Val (scrape_failed e) else Exc e,
              s1)
       end)
  ∧ (only_Exceptions E →
     Strict.run_action_sync E action payload s
     = run_action_sync E action payload s
     ∧ ∃ r, (Strict.run_action_sync E action payload s).1 = Val r).
Proof.
  assert (match create_driver E s with
          | (Exc e, s1) =>
              Strict.run_action_sync E action payload s
              = (if isinstance_Exception e then Val (unexpected_error e)
                 else Exc e, s1)
          | (Val d, s1) =>
              match Strict.run_action_steps E d action (py_or payload (JObj ∅)) s1
              with
              | (Val r, s2) =>
                  Strict.run_action_sync E action payload s
                  = (Val r, log (quit_event E d s2) s2)
              | (Exc e, s2) =>
                  Strict.run_action_sync E action payload s
                  = (if isinstance_Exception e then Val (unexpected_error e)
                     else Exc e,
                     log (quit_event E d s2) s2)
              end
          end) as Hcases.
  { unfold Strict.run_action_sync. cbv zeta.
    destruct (create_driver E s) as [[d|e] s1].
    - rewrite try_finally_quit. unfold try_except_Exception.
      destruct (Strict.run_action_steps E d action _ s1) as [[r|e] s2]; [done | ].
      by destruct (isinstance_Exception e).
    - by destruct (isinstance_Exception e). }
  split; [ | split; [exact Hcases | split; [ | split]]].
  - destruct (create_driver E s) as [[d|e] s1].
    + destruct (Strict.run_action_steps E d action _ s1) as [[r|e] s2];
        rewrite Hcases; [done | ].
      by destruct (isinstance_Exception e) eqn:He.
    + rewrite Hcases. by destruct (isinstance_Exception e) eqn:He.
  - intros d u p s0. unfold Strict.login_action, try_except_Exception.
    destruct (login_steps E d u p s0) as [[r|e] s1]; [done | ].
    destruct (isinstance_Exception e); [ | done].
    by rewrite login_except_run.
  - intros d s0. unfold Strict.scrape_organization_dashboard, try_except_Exception.
    destruct (scrape_steps E d s0) as [[r|e] s1]; [done | ].
    by destruct (isinstance_Exception e).
  - intros HE. rewrite strict_run_action_sync by done.
    split; [done | apply run_action_sync_total].
Qed.

End Interrupts.

(** * Further properties on sample runs *)

(** The monitor does reject a log in which the password comes first. *)
Example password_first_is_rejected :
  ¬ keys_in_order 0%nat (JStr "taxpayer") (JStr "secret") false
      [ Ev (CSendKeys 4%nat (JStr "secret")) (Val ()) ].
Proof. intros [H _]. specialize (H _ _ eq_refl). discriminate. Qed.

Lemma fine_obliging : obliging fine.
Proof. intros c n. destruct c; by eexists. Qed.

Lemma fine_past_login : past_login fine.
Proof. intros d n url [= <-]. by vm_compute. Qed.

Lemma create_driver_returns_witness :
  0%nat = launched init_state
  ∧ launched (create_driver with_profile init_state).2 = S (launched init_state)
  ∧ (∃ path profile,
       trace (create_driver with_profile init_state).2 = trace init_state ++
         [ Ev CInstall (Val path);
           Ev (CChrome path (fixed_arguments ++ profile) chrome_experimental)
              (Val ());
           Ev (CSetPageLoadTimeout 0%nat 60) (Val ()) ]
       ∧ match os_getenv with_profile "CHROME_USER_DATA_DIR",
               os_getenv with_profile "CHROME_PROFILE_DIR" with
         | Some dir, Some prof =>
             if negb (String.eqb dir "") && negb (String.eqb prof "")
             then profile = [ "--user-data-dir=" +:+ dir;
                              "--profile-directory=" +:+ prof ]
             else profile = []
         | _, _ => profile = []
         end).
Proof.
  apply (create_driver_returns with_profile init_state 0%nat
           (create_driver with_profile init_state).2).
  vm_compute; reflexivity.
Defined.

Lemma create_driver_raises_witness :
  (trace (create_driver (fails_at 1 boom) init_state).2
   = trace init_state ++ [Ev CInstall (Exc boom)]
   ∧ launched (create_driver (fails_at 1 boom) init_state).2
     = launched init_state)
  ∨ (∃ path,
       trace (create_driver (fails_at 1 boom) init_state).2
       = trace init_state ++
         [ Ev CInstall (Val path);
           Ev (CChrome path (chrome_arguments (fails_at 1 boom))
                       chrome_experimental) (Exc boom) ]
       ∧ launched (create_driver (fails_at 1 boom) init_state).2
         = launched init_state)
  ∨ (∃ path,
       trace (create_driver (fails_at 1 boom) init_state).2
       = trace init_state ++
         [ Ev CInstall (Val path);
           Ev (CChrome path (chrome_arguments (fails_at 1 boom))
                       chrome_experimental) (Val ());
           Ev (CSetPageLoadTimeout (launched init_state) 60) (Exc boom) ]
       ∧ launched (create_driver (fails_at 1 boom) init_state).2
         = S (launched init_state)).
Proof.
  apply (create_driver_raises (fails_at 1 boom) init_state boom
           (create_driver (fails_at 1 boom) init_state).2).
  vm_compute; reflexivity.
Defined.

Lemma browser_left_open_witness :
  ∃ s',
    run_action_sync (fails_at 2 boom) (JStr "login") (JObj creds) init_state
    = (Val (unexpected_error boom), s')
    ∧ launched s' = S (launched init_state)
    ∧ trace s' = trace init_state ++
        [ Ev CInstall (Val "/opt/chromedriver");
          Ev (CChrome "/opt/chromedriver" (chrome_arguments (fails_at 2 boom))
                      chrome_experimental) (Val ());
          Ev (CSetPageLoadTimeout (launched init_state) 60) (Exc boom) ]
    ∧ quits [ Ev CInstall (Val "/opt/chromedriver");
              Ev (CChrome "/opt/chromedriver"
                          (chrome_arguments (fails_at 2 boom))
                          chrome_experimental) (Val ());
              Ev (CSetPageLoadTimeout (launched init_state) 60) (Exc boom) ]
      = 0%nat.
Proof.
  apply (browser_left_open (fails_at 2 boom) (JStr "login") (JObj creds)
           init_state "/opt/chromedriver" boom); reflexivity.
Defined.

Lemma scrape_reads_after_wait_witness :
  ∃ body_el html text,
    trace (scrape_organization_dashboard fine 0%nat init_state).2
    = trace init_state ++
      [ Ev (CGet 0%nat DASHBOARD_URL) (Val ());
        Ev (CWaitPresence 0%nat 30 (ByTagName "body")) (Val body_el);
        Ev (CSleep 3000) (Val ());
        Ev (CPageSource 0%nat) (Val html);
        Ev (CSoupGetText html newline) (Val text) ]
    ∧ scrape_ok "Org"
      = {[ "status" := "ok"; "dashboard_url" := DASHBOARD_URL; "text" := text ]}.
Proof.
  apply (scrape_reads_after_wait fine 0%nat init_state (scrape_ok "Org"));
    [vm_compute; reflexivity | reflexivity].
Defined.

Lemma scrape_reports_first_failure_witness :
  ∃ pre c e,
    trace (scrape_organization_dashboard (fails_at 1 boom) 0%nat init_state).2
    = trace init_state ++ pre ++ [Ev c (Exc e)]
    ∧ Forall returned pre
    ∧ scrape_failed boom
      = {[ "status" := "error";
           "message" := "scrape_organization_dashboard failed: "
                        +:+ exn_text e ]}.
Proof.
  apply (scrape_reports_first_failure (fails_at 1 boom) 0%nat init_state
           (scrape_failed boom));
    [vm_compute; reflexivity | intros H; vm_compute in H; discriminate].
Defined.

Lemma login_goes_through_witness :
  ∃ user_el next_el pass_el login_el url1 url2 url s',
    login_action fine 0%nat (JStr "taxpayer") (JStr "secret") init_state
    = (Val (login_ok url), s')
    ∧ trace s' = trace init_state
                 ++ login_sequence 0%nat (JStr "taxpayer") (JStr "secret")
                      user_el next_el pass_el login_el None None []
                      url1 url2 url.
Proof.
  apply (login_goes_through fine 0%nat (JStr "taxpayer") (JStr "secret")
           init_state fine_obliging fine_past_login).
Defined.

Lemma run_goes_through_witness :
  ∃ r s' evs,
    run_action_sync fine (JStr "Scrape_Dashboard") (JObj creds) init_state
    = (Val r, s')
    ∧ (if String.eqb (lower "Scrape_Dashboard") "login"
       then ∃ url, r = login_ok url
       else ∃ text, r = scrape_ok text)
    ∧ trace s' = trace init_state ++ evs
                 ++ [Ev (CQuit (launched init_state)) (Val ())]
    ∧ Forall returned evs.
Proof.
  apply (run_goes_through fine "Scrape_Dashboard" creds init_state
           fine_obliging fine_past_login); reflexivity.
Defined.

Lemma wrong_types_reported_witness :
  run_action_sync fine (JInt 7) (JObj creds) init_state
  = (Val (unexpected_error (AttributeError (JInt 7) "lower")),
     log (quit_event fine 0%nat (create_driver fine init_state).2)
         (create_driver fine init_state).2).
Proof.
  apply (wrong_types_reported fine (JInt 7) (JObj creds) init_state 0%nat
           (create_driver fine init_state).2
           (AttributeError (JInt 7) "lower"));
    [vm_compute; reflexivity | reflexivity].
Defined.

Lemma login_answer_passed_on_witness :
  ∃ r s2,
    login_action (fails_at 5 boom) 0%nat (default JNull (creds !! "username"))
                 (default JNull (creds !! "password"))
                 (create_driver (fails_at 5 boom) init_state).2 = (Val r, s2)
    ∧ run_action_sync (fails_at 5 boom) (JStr "login") (JObj creds) init_state
      = (Val r, log (quit_event (fails_at 5 boom) 0%nat s2) s2).
Proof.
  apply (login_answer_passed_on (fails_at 5 boom) "login" creds init_state 0%nat
           (create_driver (fails_at 5 boom) init_state).2);
    [reflexivity | reflexivity | reflexivity | vm_compute; reflexivity].
Defined.

Lemma ok_answer_tells_action_witness :
  (lower "login" = "login"
   ∧ ∃ url, login_ok "https://secure.sarsefiling.co.za/app/landing"
            = login_ok url)
  ∨ (lower "login" = "scrape_dashboard"
     ∧ ∃ text, login_ok "https://secure.sarsefiling.co.za/app/landing"
               = scrape_ok text).
Proof.
  apply (ok_answer_tells_action fine "login" (JObj creds) init_state
           (login_ok "https://secure.sarsefiling.co.za/app/landing")
           (run_action_sync fine (JStr "login") (JObj creds) init_state).2);
    [vm_compute; reflexivity | reflexivity].
Defined.

Lemma fails_at_only_Exceptions k : only_Exceptions (fails_at k boom).
Proof.
  intros c n e. cbn. destruct (n =? k)%nat; intros H;
    [by injection H as <- | destruct c; discriminate].
Defined.

Lemma run_action_sync_catches_exceptions_witness :
  Strict.run_action_sync (fails_at 3 boom) (JStr "login") (JObj creds) init_state
  = run_action_sync (fails_at 3 boom) (JStr "login") (JObj creds) init_state
  ∧ ∃ r, (Strict.run_action_sync (fails_at 3 boom) (JStr "login") (JObj creds)
                                 init_state).1 = Val r.
Proof.
  apply (run_action_sync_catches_exceptions (fails_at 3 boom) (JStr "login")
           (JObj creds) init_state).
  apply fails_at_only_Exceptions.
Defined.
